(** * Tornado-Tester: a shallow embedding of [tornado_tester]

    The development follows the three modules of the package:
    - [tornado_tester/tester.py]: [_add_query_params], the [Tester]
      life cycle, [url_for] and the [gen_test] adapter;
    - [tornado_tester/httpclient.py]: [utf8], [random_boundary],
      [encode_multipart] and [AsyncHTTPClient.fetch];
    - [tornado_tester/util.py]: [encoding], [text_body] and [json_body].

    Conventions.  A Python [bytes] object is a Rocq [string] (a sequence
    of 8-bit characters).  A Python [str] is also carried by a Rocq
    [string], read as its sequence of code points; the embedding therefore
    covers text whose code points lie in U+0000..U+00FF.  The two are kept
    apart by the constructors of [pyval].  Exceptions are values of [exn];
    a call that may raise returns a [result]. *)

From stdpp Require Import gmap strings pretty.
From Stdlib Require Import Ascii String.

Local Open Scope string_scope.
Local Open Scope list_scope.
Local Open Scope stdpp_scope.

(** ** Python values and exceptions *)

Inductive exn : Type :=
| RuntimeError (msg : string)
| AttributeError (msg : string)
| TypeError (msg : string)
| ValueError (msg : string)
| StopIteration
| External (tag : string).

Inductive result (A : Type) : Type :=
| Ok (a : A)
| Raise (e : exn).
Arguments Ok {A} a.
Arguments Raise {A} e.

(** Scalars. *)
Inductive pyval : Type :=
| PNone
| PBool (b : bool)
| PInt (z : Z)
| PStr (s : string)
| PBytes (b : string).

(** A readable object: [read()] returns [content]. *)
Record fileobj : Type := FileObj { content : pyval }.

(** The value of a dict entry: a scalar, or a pair [(filename, fileobj)]. *)
Inductive dval : Type :=
| DVal (v : pyval)
| DFile (filename : pyval) (f : fileobj).

(** What a keyword argument of [fetch] may hold: a scalar, or a dict (or
    the equivalent sequence of pairs), kept in iteration order. *)
Inductive arg : Type :=
| AVal (v : pyval)
| ADict (items : list (pyval * dval)).

Global Instance exn_eq_dec : EqDecision exn.
Proof. solve_decision. Defined.

Global Instance pyval_eq_dec : EqDecision pyval.
Proof. solve_decision. Defined.

(** [bool(v)]. *)
Definition pyval_truthy (v : pyval) : bool :=
  match v with
  | PNone => false
  | PBool b => b
  | PInt z => negb (Z.eqb z 0)
  | PStr s => negb (String.eqb s "")
  | PBytes b => negb (String.eqb b "")
  end.

Definition truthy (a : arg) : bool :=
  match a with
  | AVal v => pyval_truthy v
  | ADict [] => false
  | ADict (_ :: _) => true
  end.

(** [str(v)] on scalars. *)
Definition py_str (v : pyval) : string :=
  match v with
  | PNone => "None"
  | PBool true => "True"
  | PBool false => "False"
  | PInt z => pretty z
  | PStr s => s
  | PBytes b => "b'" +:+ b +:+ "'"
  end.

(** [str(len(x))]. *)
Definition str_len (x : string) : string := pretty (String.length x).

(** ** String primitives used by the package *)

Definition CRLF : string := String "013" (String "010" "").

(** The one-character string made of a double quote. *)
Definition dquote : string := String "034" "".

(** [s.startswith(p)]. *)
Definition startswith (p s : string) : bool := String.prefix p s.

(** [c in s] for a one-character [c]. *)
Fixpoint contains (c : ascii) (s : string) : bool :=
  match s with
  | "" => false
  | String d r => if decide (d = c) then true else contains c r
  end.

(** The text before the first [c] and, when there is one, the text after
    it. *)
Fixpoint cut (c : ascii) (s : string) : string * option string :=
  match s with
  | "" => ("", None)
  | String d r =>
      if decide (d = c) then ("", Some r)
      else let '(a, b) := cut c r in (String d a, b)
  end.

(** [s.split(c, 1)]: a list of one or two pieces. *)
Definition split1 (c : ascii) (s : string) : list string :=
  match cut c s with
  | (a, None) => [a]
  | (a, Some b) => [a; b]
  end.

(** The text from [#] on, when a URL has a fragment. *)
Definition fragment_suffix (frag : option string) : string :=
  match frag with
  | Some f => "#" +:+ f
  | None => ""
  end.

(** [sep.join(ls)]. *)
Definition join (sep : string) (ls : list string) : string :=
  String.concat sep ls.

(** [s.encode('utf-8')] for code points below U+0100: one byte below
    U+0080, otherwise the two bytes [110000xx 10xxxxxx]. *)
Definition encode_char (c : ascii) : string :=
  let n := nat_of_ascii c in
  if decide (n < 128)%nat then String c ""
  else String (ascii_of_nat (192 + n / 64))
         (String (ascii_of_nat (128 + n mod 64)) "").

Fixpoint str_encode (s : string) : string :=
  match s with
  | "" => ""
  | String c r => encode_char c +:+ str_encode r
  end.

(** ** Parts of Python the package calls

    These belong to the standard library, not to the package; the
    package is verified for every behaviour they may have. *)

Class Library := {
  (** [urllib.parse.urlencode(query)]. *)
  urlencode : arg -> result string;
  (** [str((filename, fileobj))], the text of a pair. *)
  pair_str : pyval -> fileobj -> string;
  (** [b.decode()]. *)
  bytes_decode : string -> result string;
  (** [email.message_from_string('Content-Type: ' + v).get_param('charset', d)]. *)
  get_param_charset : string -> string -> string;
  (** The state of the [random] module, [random.randint(a, b)] and
      [random.choice(seq)]. *)
  Rng : Type;
  randint : nat -> nat -> Rng -> nat * Rng;
  choice : string -> Rng -> ascii * Rng
}.

(** ** [tornado_tester/httpclient.py] *)

(** The call [super().fetch(request, callback=callback,
    raise_error=raise_error, **kwargs)] that [fetch] ends with. *)
Record base_fetch (Request Callback : Type) : Type := BaseFetch {
  bf_request : Request;
  bf_callback : Callback;
  bf_raise_error : bool;
  bf_kwargs : gmap string arg
}.
Arguments BaseFetch {Request Callback}.
Arguments bf_request {Request Callback}.
Arguments bf_callback {Request Callback}.
Arguments bf_raise_error {Request Callback}.
Arguments bf_kwargs {Request Callback}.

Section httpclient.
Context `{Library}.

Definition _BOUNDARY_CHARS : string :=
  "abcdefghijklmnopqrstuvwxyzABCDEFGHIJKLMNOPQRSTUVWXYZ" +:+ "0123456789" +:+ "-_".

(** [utf8(s)]: text is encoded, bytes are kept, anything else goes
    through [str] first. *)
Definition utf8 (s : pyval) : string :=
  match s with
  | PStr t => str_encode t
  | PBytes b => b
  | other => str_encode (py_str other)
  end.

(** [utf8] on an entry of [lines] taken from a dict value. *)
Definition utf8_dval (v : dval) : string :=
  match v with
  | DVal s => utf8 s
  | DFile filename f => str_encode (pair_str filename f)
  end.

(** [''.join(random.choice(_BOUNDARY_CHARS) for i in range(n))]. *)
Fixpoint choices (n : nat) (r : Rng) : string * Rng :=
  match n with
  | O => ("", r)
  | S m =>
      let '(c, r1) := choice _BOUNDARY_CHARS r in
      let '(s, r2) := choices m r1 in
      (String c s, r2)
  end.

Definition random_boundary (r : Rng) : string * Rng :=
  let '(n, r1) := randint 20 50 r in
  let '(s, r2) := choices n r1 in
  (utf8 (PStr ("---" +:+ s +:+ "---")), r2).

(** [for key, value in form]: a dict gives its items; iterating a scalar
    raises. *)
Definition iter_pairs (a : arg) : result (list (pyval * dval)) :=
  match a with
  | ADict l => Ok l
  | AVal (PStr s) =>
      if decide (s = "") then Ok []
      else Raise (ValueError "not enough values to unpack")
  | AVal (PBytes b) =>
      if decide (b = "") then Ok []
      else Raise (TypeError "cannot unpack non-iterable int object")
  | AVal _ => Raise (TypeError "object is not iterable")
  end.

(** [key, (filename, fileobj) = item] followed by [fileobj.read()]:
    a scalar in place of the pair cannot be unpacked, or has no [read]. *)
Definition unpack_file (v : dval) : result (pyval * pyval) :=
  match v with
  | DFile filename f => Ok (filename, content f)
  | DVal (PStr s) | DVal (PBytes s) =>
      if decide (String.length s = 2%nat)
      then Raise (AttributeError "object has no attribute 'read'")
      else Raise (ValueError "wrong number of values to unpack")
  | DVal _ => Raise (TypeError "cannot unpack non-iterable object")
  end.

(** The four entries appended to [lines] for a form field. *)
Definition form_lines (boundary : string) (kv : pyval * dval) : list string :=
  [ "--" +:+ boundary;
    "Content-Disposition: form-data; name=" +:+ dquote +:+ utf8 (fst kv) +:+ dquote;
    utf8 (PStr "");
    utf8_dval (snd kv) ].

(** The four entries appended to [lines] for a file field. *)
Definition file_lines (boundary : string) (key filename data : pyval) : list string :=
  [ "--" +:+ boundary;
    "Content-Disposition: form-data; name=" +:+ dquote +:+ utf8 key +:+ dquote +:+ "; " +:+
      "filename=" +:+ dquote +:+ utf8 filename +:+ dquote;
    utf8 (PStr "");
    utf8 data ].

(** The second loop of [encode_multipart], which stops at the first entry
    that is not a pair. *)
Fixpoint files_loop (boundary : string) (files : list (pyval * dval))
    (lines : list string) : result (list string) :=
  match files with
  | [] => Ok lines
  | (key, v) :: rest =>
      match unpack_file v with
      | Ok (filename, data) =>
          files_loop boundary rest (lines ++ file_lines boundary key filename data)
      | Raise e => Raise e
      end
  end.

Definition encode_multipart (form files : arg) (boundary : string) : result string :=
  match iter_pairs form with
  | Raise e => Raise e
  | Ok form_items =>
      let lines := List.concat (map (form_lines boundary) form_items) in
      match iter_pairs files with
      | Raise e => Raise e
      | Ok file_items =>
          match files_loop boundary file_items lines with
          | Raise e => Raise e
          | Ok lines =>
              let lines := lines ++ ["--" +:+ boundary +:+ "--"] in
              let lines := lines ++ [utf8 (PStr "")] in
              Ok (join CRLF lines)
          end
      end
  end.

(** [d[k] = v] on a dict kept in order: the entry is replaced where the
    key is already present, appended otherwise. *)
Fixpoint dict_set (k : pyval) (v : dval) (d : list (pyval * dval)) : list (pyval * dval) :=
  match d with
  | [] => [(k, v)]
  | (k', v') :: rest =>
      if decide (k' = k) then (k, v) :: rest else (k', v') :: dict_set k v rest
  end.

(** [d[k]] on the same representation. *)
Fixpoint dict_get (k : pyval) (d : list (pyval * dval)) : option dval :=
  match d with
  | [] => None
  | (k', v') :: rest => if decide (k' = k) then Some v' else dict_get k rest
  end.

(** [headers[k] = v]: only a dict supports item assignment. *)
Definition setitem (headers : arg) (k : string) (v : pyval) : result arg :=
  match headers with
  | ADict d => Ok (ADict (dict_set (PStr k) (DVal v) d))
  | AVal _ => Raise (TypeError "object does not support item assignment")
  end.

(** [kwargs.pop(k, d)]: the value and the remaining keyword arguments. *)
Definition pop (k : string) (d : arg) (kwargs : gmap string arg) : arg * gmap string arg :=
  (default d (kwargs !! k), delete k kwargs).

(** [kwargs.setdefault(k, d)]. *)
Definition setdefault (k : string) (d : arg) (kwargs : gmap string arg) : gmap string arg :=
  match kwargs !! k with
  | Some _ => kwargs
  | None => <[k := d]> kwargs
  end.

Definition fetch {Request Callback : Type} (request : Request) (callback : Callback)
    (raise_error : bool) (kwargs : gmap string arg) (r : Rng)
    : result (base_fetch Request Callback) * Rng :=
  let '(form, kwargs) := pop "form" (AVal PNone) kwargs in
  let '(files, kwargs) := pop "files" (AVal PNone) kwargs in
  if truthy form && negb (truthy files) then
    let '(headers, kwargs) := pop "headers" (ADict []) kwargs in
    let kwargs := setdefault "method" (AVal (PStr "POST")) kwargs in
    match urlencode form with
    | Raise e => (Raise e, r)
    | Ok body =>
        match setitem headers "Content-Type" (PStr "application/x-www-form-urlencoded") with
        | Raise e => (Raise e, r)
        | Ok headers =>
            match setitem headers "Content-Length" (PStr (str_len body)) with
            | Raise e => (Raise e, r)
            | Ok headers =>
                let kwargs := <["body" := AVal (PStr body)]> kwargs in
                let kwargs := <["headers" := headers]> kwargs in
                (Ok (BaseFetch request callback raise_error kwargs), r)
            end
        end
    end
  else if truthy files then
    let '(headers, kwargs) := pop "headers" (ADict []) kwargs in
    let kwargs := setdefault "method" (AVal (PStr "POST")) kwargs in
    let form := if truthy form then form else ADict [] in
    let '(boundary, r) := random_boundary r in
    match encode_multipart form files boundary with
    | Raise e => (Raise e, r)
    | Ok body =>
        let content_type := "multipart/form-data; boundary=" +:+ boundary in
        match setitem headers "Content-Type" (PBytes content_type) with
        | Raise e => (Raise e, r)
        | Ok headers =>
            match setitem headers "Content-Length" (PStr (str_len body)) with
            | Raise e => (Raise e, r)
            | Ok headers =>
                let kwargs := <["body" := AVal (PBytes body)]> kwargs in
                let kwargs := <["headers" := headers]> kwargs in
                (Ok (BaseFetch request callback raise_error kwargs), r)
            end
        end
    end
  else
    (Ok (BaseFetch request callback raise_error kwargs), r).

(** *** What the base client is asked for *)

(** The header [k] of the call. *)
Definition header_of {Request Callback : Type} (c : base_fetch Request Callback)
    (k : string) : option dval :=
  match bf_kwargs c !! "headers" with
  | Some (ADict d) => dict_get (PStr k) d
  | _ => None
  end.

(** The method of the call is the caller's, or [POST] when the caller
    gave none. *)
Definition method_defaults_to_post {Request Callback : Type}
    (kwargs : gmap string arg) (c : base_fetch Request Callback) : Prop :=
  bf_kwargs c !! "method" = Some (default (AVal (PStr "POST")) (kwargs !! "method")).

(** The call carries the URL-encoded [form]. *)
Definition sends_urlencoded_form {Request Callback : Type}
    (kwargs : gmap string arg) (form : arg) (c : base_fetch Request Callback) : Prop :=
  exists body,
    urlencode form = Ok body
    /\ method_defaults_to_post kwargs c
    /\ bf_kwargs c !! "body" = Some (AVal (PStr body))
    /\ header_of c "Content-Type" = Some (DVal (PStr "application/x-www-form-urlencoded"))
    /\ header_of c "Content-Length" = Some (DVal (PStr (str_len body))).

(** The call carries the multipart [body] made with [boundary]. *)
Definition sends_multipart {Request Callback : Type}
    (kwargs : gmap string arg) (boundary body : string)
    (c : base_fetch Request Callback) : Prop :=
  method_defaults_to_post kwargs c
  /\ bf_kwargs c !! "body" = Some (AVal (PBytes body))
  /\ header_of c "Content-Type"
       = Some (DVal (PBytes ("multipart/form-data; boundary=" +:+ boundary)))
  /\ header_of c "Content-Length" = Some (DVal (PStr (str_len body))).

(** The caller's [headers] may be left out or be a dict. *)
Definition headers_given (kwargs : gmap string arg) (d : list (pyval * dval)) : Prop :=
  default (ADict []) (kwargs !! "headers") = ADict d.

(** *** The multipart format as the specification words it

    For each form field the lines [--boundary], the content disposition
    with the field name, a blank line, the value; for each file field the
    lines [--boundary], the content disposition with the field name and
    the file name, a blank line, the content of the file; then the line
    [--boundary--].  Every line ends with CRLF. *)

Definition field_part (boundary : string) (field : pyval * dval) : list string :=
  [ "--" +:+ boundary;
    "Content-Disposition: form-data; name=" +:+ dquote +:+ utf8 (fst field) +:+ dquote;
    "";
    utf8_dval (snd field) ].

Definition file_part (boundary : string) (file : pyval * (pyval * fileobj)) : list string :=
  [ "--" +:+ boundary;
    "Content-Disposition: form-data; name=" +:+ dquote +:+ utf8 (fst file) +:+ dquote
      +:+ "; filename=" +:+ dquote +:+ utf8 (fst (snd file)) +:+ dquote;
    "";
    utf8 (content (snd (snd file))) ].

Fixpoint terminated_lines (lines : list string) : string :=
  match lines with
  | [] => ""
  | l :: rest => l +:+ CRLF +:+ terminated_lines rest
  end.

Definition multipart_body (boundary : string) (fields : list (pyval * dval))
    (files : list (pyval * (pyval * fileobj))) : string :=
  terminated_lines
    (flat_map (field_part boundary) fields
     ++ flat_map (file_part boundary) files
     ++ ["--" +:+ boundary +:+ "--"]).

(** A [files] dict whose values are all pairs [(filename, fileobj)]. *)
Definition files_dict (files : list (pyval * (pyval * fileobj))) : arg :=
  ADict (map (fun f => (fst f, DFile (fst (snd f)) (snd (snd f)))) files).

End httpclient.

(** ** [tornado_tester/util.py] *)

Section util.
Context `{Library}.

(** A [tornado.httpclient.HTTPResponse]: its header mapping and its raw
    body. *)
Record HTTPResponse : Type := {
  headers : gmap string pyval;
  body : string
}.

(** [v.decode()]: only [bytes] has the method. *)
Definition decode (v : pyval) : result string :=
  match v with
  | PBytes b => bytes_decode b
  | PStr _ => Raise (AttributeError "'str' object has no attribute 'decode'")
  | _ => Raise (AttributeError "object has no attribute 'decode'")
  end.

(** ['Content-Type: ' + v]: only [str] can be added to a [str]. *)
Definition content_type_line (v : pyval) : result string :=
  match v with
  | PStr s => Ok s
  | _ => Raise (TypeError "can only concatenate str to str")
  end.

Definition encoding (response : HTTPResponse) : result string :=
  match headers response !! "Content-Encoding" with
  | Some v => decode v
  | None =>
      match headers response !! "Content-Type" with
      | Some v =>
          match content_type_line v with
          | Ok s => Ok (get_param_charset s "utf-8")
          | Raise e => Raise e
          end
      | None => Ok "utf-8"
      end
  end.

End util.

(** ** Parts of Tornado the package calls

    [World] is the state of the process that the framework owns: which
    loop is current, which sockets are bound.  A framework call takes the
    world and returns the world it leaves, with a value or the exception
    it raised. *)

Class Tornado := {
  World : Type;
  IOLoop : Type;
  IOLoop_eq_dec :: EqDecision IOLoop;
  HTTPServer : Type;
  HTTPClient : Type;
  Socket : Type;
  Application : Type;
  (** [tornado.ioloop.IOLoop()]. *)
  IOLoop_new : World -> IOLoop * World;
  (** [tornado.ioloop.IOLoop.current()]. *)
  IOLoop_current : World -> IOLoop;
  (** [loop.make_current()]. *)
  make_current : IOLoop -> World -> World;
  (** [tornado.httpserver.HTTPServer(app, io_loop=loop)]. *)
  HTTPServer_new : Application -> IOLoop -> World -> result HTTPServer * World;
  (** [server.io_loop]. *)
  server_io_loop : HTTPServer -> IOLoop;
  (** [tornado.testing.bind_unused_port()]. *)
  bind_unused_port : World -> result (Socket * Z) * World;
  (** [netutil.bind_sockets(port)]. *)
  bind_sockets : Z -> World -> result Socket * World;
  (** [server.add_socket(sock)]. *)
  add_socket : HTTPServer -> Socket -> World -> result unit * World;
  (** [client.close()], [server.stop()], [sock.close()]. *)
  client_close : HTTPClient -> World -> result unit * World;
  server_stop : HTTPServer -> World -> result unit * World;
  sock_close : Socket -> World -> result unit * World;
  (** [sock.getsockname()]: host and port. *)
  getsockname : Socket -> World -> result (string * Z);
  (** [app.reverse_url(name, *args)]. *)
  reverse_url : Application -> string -> list pyval -> result string
}.

(** ** [tornado_tester/tester.py] *)

Section tester.
Context `{Library} `{Tornado}.

Definition _add_query_params (url : string) (params : list (pyval * dval)) : result string :=
  if truthy (ADict params) then
    match urlencode (ADict params) with
    | Raise e => Raise e
    | Ok query =>
        let split := split1 "#" url in
        let url :=
          if contains "?" (nth 0 split "") then nth 0 split "" +:+ "&" +:+ query
          else nth 0 split "" +:+ "?" +:+ query in
        if decide (1 < List.length split)%nat then Ok (url +:+ "#" +:+ nth 1 split "")
        else Ok url
    end
  else Ok url.

(** The attributes of a [Tester]; [None] is Python's [None]. *)
Record Tester : Type := mkTester {
  app : Application;
  io_loop : IOLoop;
  _setup : bool;
  _used : bool;
  http_client_class : IOLoop -> World -> result HTTPClient * World;
  _http_client : option HTTPClient;
  _last_current : option IOLoop;
  _http_server : option HTTPServer;
  _sock : option Socket;
  port : option Z
}.

Definition set__setup (b : bool) (t : Tester) : Tester :=
  mkTester (app t) (io_loop t) b (_used t) (http_client_class t)
    (_http_client t) (_last_current t) (_http_server t) (_sock t) (port t).
Definition set__used (b : bool) (t : Tester) : Tester :=
  mkTester (app t) (io_loop t) (_setup t) b (http_client_class t)
    (_http_client t) (_last_current t) (_http_server t) (_sock t) (port t).
Definition set__http_client (c : option HTTPClient) (t : Tester) : Tester :=
  mkTester (app t) (io_loop t) (_setup t) (_used t) (http_client_class t)
    c (_last_current t) (_http_server t) (_sock t) (port t).
Definition set__last_current (l : option IOLoop) (t : Tester) : Tester :=
  mkTester (app t) (io_loop t) (_setup t) (_used t) (http_client_class t)
    (_http_client t) l (_http_server t) (_sock t) (port t).
Definition set__http_server (s : option HTTPServer) (t : Tester) : Tester :=
  mkTester (app t) (io_loop t) (_setup t) (_used t) (http_client_class t)
    (_http_client t) (_last_current t) s (_sock t) (port t).
Definition set__sock (s : option Socket) (t : Tester) : Tester :=
  mkTester (app t) (io_loop t) (_setup t) (_used t) (http_client_class t)
    (_http_client t) (_last_current t) (_http_server t) s (port t).
Definition set_port (p : option Z) (t : Tester) : Tester :=
  mkTester (app t) (io_loop t) (_setup t) (_used t) (http_client_class t)
    (_http_client t) (_last_current t) (_http_server t) (_sock t) p.

(** *** Methods: computations over the tester and the world

    An exception leaves the assignments made before it in place. *)

Definition M (A : Type) : Type := Tester * World -> result A * (Tester * World).

Definition ret {A} (a : A) : M A := fun s => (Ok a, s).
Definition raise {A} (e : exn) : M A := fun s => (Raise e, s).
Definition bind {A B} (m : M A) (k : A -> M B) : M B :=
  fun s => match m s with
           | (Ok a, s') => k a s'
           | (Raise e, s') => (Raise e, s')
           end.
(** [self]. *)
Definition self : M Tester := fun s => (Ok (fst s), s).
(** [self.x = v]. *)
Definition assign (f : Tester -> Tester) : M unit := fun s => (Ok tt, (f (fst s), snd s)).
(** A framework call. *)
Definition call {A} (f : World -> result A * World) : M A :=
  fun s => let '(r, w) := f (snd s) in (r, (fst s, w)).
(** A framework call that only reads the world. *)
Definition ask {A} (f : World -> A) : M A := fun s => (Ok (f (snd s)), s).
(** A framework call that cannot raise. *)
Definition tell (f : World -> World) : M unit := fun s => (Ok tt, (fst s, f (snd s))).
(** [x.m()] where [x] may be [None]. *)
Definition deref {A} (o : option A) (what : string) : M A :=
  match o with
  | Some a => ret a
  | None => raise (AttributeError ("'NoneType' object has no attribute '" +:+ what +:+ "'"))
  end.

#[local] Instance M_ret : MRet M := @ret.
#[local] Instance M_bind : MBind M := fun A B k m => bind m k.

(** [Tester(app, port, io_loop, http_client_class)]. *)
Definition __init__ (app : Application) (port : option Z) (io_loop : option IOLoop)
    (http_client_class : IOLoop -> World -> result HTTPClient * World)
    (w : World) : Tester * World :=
  let '(loop, w) :=
    match io_loop with
    | Some l => (l, w)
    | None => IOLoop_new w
    end in
  (mkTester app loop false false http_client_class None None None None port, w).

Definition not_set_up (what : string) : exn :=
  RuntimeError ("Tester should be set up before using this " +:+ what +:+ ".").
Definition already_set_up : exn := RuntimeError "This tester was already setup.".
Definition cannot_reuse : exn := RuntimeError "Tester can not be reused.".

Definition sock : M (option Socket) :=
  t ← self;
  if negb (_setup t) then raise (not_set_up "property") else ret (_sock t).

Definition http_server : M (option HTTPServer) :=
  t ← self;
  if negb (_setup t) then raise (not_set_up "property") else ret (_http_server t).

Definition http_client : M (option HTTPClient) :=
  t ← self;
  if negb (_setup t) then raise (not_set_up "property") else ret (_http_client t).

Definition setup : M unit :=
  t ← self;
  if _setup t then raise already_set_up else
  if _used t then raise cannot_reuse else
  assign (set__used true);;
  cur ← ask IOLoop_current;
  assign (set__last_current (Some cur));;
  tell (make_current (io_loop t));;
  server ← call (HTTPServer_new (app t) (io_loop t));
  assign (set__http_server (Some server));;
  client ← call (http_client_class t (server_io_loop server));
  assign (set__http_client (Some client));;
  s ← match port t with
       | None =>
           sp ← call bind_unused_port;
           assign (fun t => set_port (Some (snd sp)) (set__sock (Some (fst sp)) t));;
           ret (fst sp)
       | Some p =>
           s ← call (bind_sockets p);
           assign (set__sock (Some s));;
           ret s
       end;
  call (add_socket server s);;
  assign (set__setup true).

Definition teardown : M unit :=
  t ← self;
  if negb (_setup t) then
    raise (RuntimeError "You can not teardown tester not setup yet.") else
  c ← http_client; c ← deref c "close"; call (client_close c);;
  s ← http_server; s ← deref s "stop"; call (server_stop s);;
  k ← sock; k ← deref k "close"; call (sock_close k);;
  t ← self;
  l ← deref (_last_current t) "make_current"; tell (make_current l);;
  assign (set__last_current None);;
  assign (set__http_client None);;
  assign (set__http_server None);;
  assign (set__sock None);;
  assign (set__setup false).

(** [with tester:] enters through [setup] and leaves through [teardown]. *)
Definition __enter__ : M unit := setup.
Definition __exit__ : M unit := teardown.

Definition base_url : M string :=
  t ← self;
  if negb (_setup t) then raise (not_set_up "property") else
  s ← sock;
  s ← deref s "getsockname";
  name ← call (fun w => (getsockname s w, w));
  ret ("http://" +:+ fst name +:+ ":" +:+ pretty (snd name)).

Definition url_for (name_or_url : string) (args : list pyval)
    (kwargs : list (pyval * dval)) : M string :=
  t ← self;
  if negb (_setup t) then raise (not_set_up "method") else
  url ← (if startswith "http://" name_or_url || startswith "https://" name_or_url then
            ret name_or_url
          else if startswith "/" name_or_url then
            b ← base_url; ret (b +:+ name_or_url)
          else
            b ← base_url;
            p ← call (fun w => (reverse_url (app t) name_or_url args, w));
            ret (b +:+ p));
  call (fun w => (_add_query_params url kwargs, w)).

(** *** Sequences of calls on one tester *)

Inductive method : Type :=
| m_setup
| m_teardown
| m_enter
| m_exit
| m_sock
| m_http_server
| m_http_client
| m_base_url
| m_url_for (name_or_url : string) (args : list pyval) (kwargs : list (pyval * dval)).

(** The state a call leaves, whether it returned or raised. *)
Definition invoke (m : method) (s : Tester * World) : Tester * World :=
  match m with
  | m_setup => snd (setup s)
  | m_teardown => snd (teardown s)
  | m_enter => snd (__enter__ s)
  | m_exit => snd (__exit__ s)
  | m_sock => snd (sock s)
  | m_http_server => snd (http_server s)
  | m_http_client => snd (http_client s)
  | m_base_url => snd (base_url s)
  | m_url_for n a k => snd (url_for n a k s)
  end.

Definition invoke_all (ms : list method) (s : Tester * World) : Tester * World :=
  fold_left (fun s m => invoke m s) ms s.

End tester.

(** *** [gen_test]

    A generator object is a state [Gen] with one way to resume it.  The
    body of a generator may do anything to the world between two
    suspensions (set up a tester, make another loop current, ...). *)

Section gen_test.
Context `{Tornado}.
(** The arguments of a call, Python objects, suspended generators. *)
Context {Args Value Gen : Type}.

(** [next(g)], [g.send(v)], [g.throw(e)]. *)
Inductive gen_input : Type :=
| GNext
| GSend (v : Value)
| GThrow (e : exn).

(** What resuming gives: the generator yields and suspends again, it
    returns (Python raises [StopIteration] carrying the value), or an
    exception leaves it. *)
Inductive gen_output : Type :=
| Yielded (v : Value) (g : Gen)
| Returned (v : Value)
| Raised (e : exn).

(** A test function: [inspect.isgeneratorfunction(fn)] tells the two
    kinds apart.  Calling a generator function only creates the
    generator. *)
Inductive testfn : Type :=
| Function (f : Args -> World -> result Value * World)
| GeneratorFunction (mk : Args -> Gen).

(** How generators run. *)
Variable resume : Gen -> gen_input -> World -> gen_output * World.

(** [yield value] inside the [tornado.gen.coroutine]: the coroutine
    runner of the loop waits for [value] and resumes the coroutine with
    its result, or with the exception it failed with. *)
Variable await : IOLoop -> Value -> World -> result Value * World.

Definition multiple_loops : exn :=
  RuntimeError ("You cannot use multiple I/O loops " +:+ "in one test.").

(** Where [with_ioloop] stands: about to yield [value] to the loop, or
    finished with a value or an exception. *)
Inductive pump : Type :=
| Awaiting (value : Value) (generator : Gen) (w : World)
| Finished (r : result Value) (w : World).

(** [value = generator.send(...)] or [value = generator.throw(...)],
    inside [try: ... except StopIteration as e: return e.value]. *)
Definition resumed (o : gen_output * World) : pump :=
  match o with
  | (Yielded value g, w) => Awaiting value g w
  | (Returned v, w) => Finished (Ok v) w
  | (Raised e, w) => Finished (Raise e) w
  end.

(** What the loop hands back goes into the generator: a result by
    [generator.send], an exception by [generator.throw]. *)
Definition pass_on (received : result Value) : gen_input :=
  match received with
  | Raise e => GThrow e
  | Ok receive => GSend receive
  end.

(** One turn of [while True:] in [with_ioloop]. *)
Definition pump_step (io_loop : IOLoop) (p : pump) : pump :=
  match p with
  | Finished r w => Finished r w
  | Awaiting value generator w =>
      let '(received, w) := await io_loop value w in
      match resumed (resume generator (pass_on received) w) with
      | Finished r w => Finished r w
      | Awaiting value generator w =>
          if decide (IOLoop_current w ≠ io_loop) then
            resumed (resume generator (GThrow multiple_loops) w)
          else Awaiting value generator w
      end
  end.

(** The coroutine [with_ioloop], run for at most [fuel] turns: what it
    returns or raises and the world it leaves, [None] when the bound is
    reached first. *)
Fixpoint with_ioloop (fuel : nat) (io_loop : IOLoop) (p : pump)
    : option (result Value * World) :=
  match p with
  | Finished r w => Some (r, w)
  | Awaiting _ _ _ =>
      match fuel with
      | O => None
      | S fuel => with_ioloop fuel io_loop (pump_step io_loop p)
      end
  end.

(** The end of [IOLoop.start]: when the loop stops, the loop that was
    current when it started is made current again.  [run_sync] starts
    [io_loop] right after [io_loop = IOLoop.current()], so that loop is
    [io_loop] itself. *)
Definition loop_stopped (io_loop : IOLoop) (o : option (result Value * World))
    : option (result Value * World) :=
  match o with
  | Some (r, w) => Some (r, make_current io_loop w)
  | None => None
  end.

(** [io_loop.run_sync(with_ioloop)]: [IOLoop.start] makes [io_loop]
    current, the coroutine runs from the first yielded value until it
    returns or raises, the loop stops, and [run_sync] returns the value or
    raises the exception of the coroutine. *)
Definition run_sync (fuel : nat) (io_loop : IOLoop) (first : Value) (generator : Gen)
    (w : World) : option (result Value * World) :=
  loop_stopped io_loop
    (with_ioloop fuel io_loop (Awaiting first generator (make_current io_loop w))).

(** The function [gen_test(fn)] returns, applied to the arguments of a
    call. *)
Definition wrapper (fuel : nat) (fn : testfn) (args : Args) (w : World)
    : option (result Value * World) :=
  match fn with
  | Function f => Some (f args w)
  | GeneratorFunction mk =>
      let generator := mk args in
      match resume generator GNext w with
      | (Yielded first generator, w) =>
          let io_loop := IOLoop_current w in
          run_sync fuel io_loop first generator w
      | (Returned _, w) => Some (Raise StopIteration, w)
      | (Raised e, w) => Some (Raise e, w)
      end
  end.

(** [gen_test(fn)]: the decorated test. *)
Definition gen_test (fn : testfn) (fuel : nat) (args : Args) (w : World)
    : option (result Value * World) :=
  wrapper fuel fn args w.

(** After a resume that gave [o], the adapter goes on from [next]: when
    the generator yielded and the current loop is not [io_loop], [next] is
    what the generator answers to the multiple-loops error thrown into
    it. *)
Definition throws_on_mismatch (io_loop : IOLoop) (o : gen_output * World)
    (next : pump) : Prop :=
  forall value generator w,
    o = (Yielded value generator, w) ->
    IOLoop_current w <> io_loop ->
    next = resumed (resume generator (GThrow multiple_loops) w).

End gen_test.

(** ** A small library and framework to run the package on

    The instances below give the functions of the standard library and of
    Tornado one concrete behaviour, so that the package can be evaluated
    on test inputs. *)

Module Demo.

Definition hex_digit (n : nat) : ascii :=
  nth n (list_ascii_of_string "0123456789ABCDEF") "0"%char.

Definition is_unreserved (c : ascii) : bool :=
  contains c "abcdefghijklmnopqrstuvwxyzABCDEFGHIJKLMNOPQRSTUVWXYZ0123456789_.-~".

(** [urllib.parse.quote_plus] on bytes. *)
Fixpoint quote_plus (s : string) : string :=
  match s with
  | "" => ""
  | String c r =>
      (if is_unreserved c then String c ""
       else if decide (c = " "%char) then "+"
       else String "%" (String (hex_digit (nat_of_ascii c / 16))
                          (String (hex_digit (nat_of_ascii c mod 16)) "")))
      +:+ quote_plus r
  end.

Definition quote_val (v : pyval) : string :=
  match v with
  | PBytes b => quote_plus b
  | other => quote_plus (str_encode (py_str other))
  end.

Definition demo_pair_str (filename : pyval) (f : fileobj) : string :=
  "(" +:+ py_str filename +:+ ", <file>)".

Definition demo_urlencode (query : arg) : result string :=
  match query with
  | ADict l =>
      Ok (join "&"
            (map (fun kv =>
                    quote_val (fst kv) +:+ "=" +:+
                    match snd kv with
                    | DVal v => quote_val v
                    | DFile n f => quote_plus (str_encode (demo_pair_str n f))
                    end) l))
  | AVal _ => Raise (TypeError "not a valid non-string sequence or mapping object")
  end.

(** The text after the first [charset=], up to the next [;]. *)
Fixpoint find_charset (fuel : nat) (s : string) : option string :=
  match fuel with
  | O => None
  | S fuel =>
      if startswith "charset=" s then
        Some (fst (cut ";" (String.substring 8 (String.length s) s)))
      else
        match s with
        | "" => None
        | String _ r => find_charset fuel r
        end
  end.

Definition demo_get_param_charset (v d : string) : string :=
  default d (find_charset (S (String.length v)) v).

#[export] Instance demo_library : Library := {
  urlencode := demo_urlencode;
  pair_str := demo_pair_str;
  bytes_decode := fun b => Ok b;
  get_param_charset := demo_get_param_charset;
  Rng := list nat;
  randint := fun a b r => (a + hd 0 r mod (b - a + 1), tl r)%nat;
  choice := fun s r =>
    (nth (hd 0%nat r mod String.length s) (list_ascii_of_string s) "-"%char, tl r)
}.

(** The world: the loop that is current and a supply of fresh names.
    Loops, servers, clients are named by numbers, a socket by its port;
    an application is its table of named routes. *)
Record demo_world : Type := { current : nat; fresh : nat }.

#[export] Instance demo_tornado : Tornado := {
  World := demo_world;
  IOLoop := nat;
  HTTPServer := nat;
  HTTPClient := nat;
  Socket := Z;
  Application := list (string * string);
  IOLoop_new := fun w => (fresh w, {| current := current w; fresh := S (fresh w) |});
  IOLoop_current := current;
  make_current := fun l w => {| current := l; fresh := fresh w |};
  HTTPServer_new := fun _ l w => (Ok l, w);
  server_io_loop := fun s => s;
  bind_unused_port := fun w =>
    (Ok (10000 + Z.of_nat (fresh w), 10000 + Z.of_nat (fresh w))%Z,
     {| current := current w; fresh := S (fresh w) |});
  bind_sockets := fun p w =>
    if decide (0 <= p < 65536)%Z then (Ok p, w)
    else (Raise (External "OverflowError"), w);
  add_socket := fun _ _ w => (Ok tt, w);
  client_close := fun _ w => (Ok tt, w);
  server_stop := fun _ w => (Ok tt, w);
  sock_close := fun _ w => (Ok tt, w);
  getsockname := fun s _ => Ok ("127.0.0.1", s);
  reverse_url := fun app name _ =>
    match list_find (fun r => fst r = name) app with
    | Some (_, r) => Ok (snd r)
    | None => Raise (External "KeyError")
    end
}.

Definition demo_client (l : IOLoop) (w : World) : result HTTPClient * World := (Ok l, w).

Definition w0 : World := {| current := 0; fresh := 1 |}.

(** The application of [test_url_for]: a route named [hello]. *)
Definition hello_app : Application := [("hello", "/hello")].

(** A fresh tester and the same tester after [setup]. *)
Definition fresh_tester : Tester * World := __init__ hello_app None None demo_client w0.
Definition active_tester : Tester * World := snd (setup fresh_tester).
Definition torn_down_tester : Tester * World := snd (teardown active_tester).

(** A generator that yields [PNone] once for each loop of its list,
    making that loop current first, and then returns what it was last
    sent.  Thrown an exception, it returns [PNone]. *)
Definition demo_resume (g : list nat) (i : @gen_input pyval) (w : demo_world)
    : @gen_output pyval (list nat) * demo_world :=
  match i with
  | GThrow _ => (Returned PNone, w)
  | GNext | GSend _ =>
      match g with
      | [] => (Returned (match i with GSend v => v | _ => PNone end), w)
      | l :: g => (Yielded PNone g, {| current := l; fresh := fresh w |})
      end
  end.

(** The loop resolves whatever is yielded to [1]. *)
Definition demo_await (l : nat) (v : pyval) (w : demo_world) : result pyval * demo_world :=
  (Ok (PInt 1), w).

(** The keyword arguments of two calls of [fetch]: an upload as in
    [test_fileupload], and a form of one field. *)
Definition upload : list (pyval * (pyval * fileobj)) :=
  [(PStr "file", (PStr "hello.txt", FileObj (PBytes "Hello")))].
Definition upload_kwargs : gmap string arg :=
  <["files" := files_dict upload]> (<["request_timeout" := AVal (PInt 5)]> ∅).
Definition form_kwargs : gmap string arg :=
  <["form" := ADict [(PStr "a", DVal (PStr "b c"))]]>
    (<["request_timeout" := AVal (PInt 5)]> ∅).

End Demo.

(** ** The rest of [tornado_tester/util.py]

    [text_body] and [json_body] go through two more functions of
    Python: the codec lookup of [bytes.decode(name)] and [json.loads]. *)

Class Codecs := {
  (** [b.decode(name)]. *)
  decode_as : string -> string -> result string;
  (** The values [json.loads] returns, and [json.loads(text)]. *)
  Json : Type;
  json_loads : string -> result Json
}.

Section util_body.
Context `{Library} `{Codecs}.

Definition text_body (response : HTTPResponse) : result string :=
  match encoding response with
  | Raise e => Raise e
  | Ok name => decode_as name (body response)
  end.

Definition json_body (response : HTTPResponse) : result Json :=
  match text_body response with
  | Raise e => Raise e
  | Ok text => json_loads text
  end.

End util_body.

Module DemoBody.

(** A codec table with [utf-8] alone, which decodes ASCII as itself, and
    a parser that accepts the text [null] alone. *)
#[export] Instance demo_codecs : Codecs := {
  decode_as := fun name b =>
    if decide (name = "utf-8") then Ok b else Raise (External "LookupError");
  Json := unit;
  json_loads := fun text =>
    if decide (text = "null") then Ok tt else Raise (ValueError "malformed JSON")
}.

(** A second application for [test_another_loop] and [test_shared_loop]:
    two testers, each on a loop of its own, over the world [Demo.w0]. *)
Definition tester1 : Tester * World :=
  __init__ Demo.hello_app None None Demo.demo_client Demo.w0.
Definition tester1_active : Tester * World := snd (setup tester1).
Definition tester2 : Tester * World :=
  __init__ Demo.hello_app None None Demo.demo_client (snd tester1_active).
Definition tester2_active : Tester * World := snd (setup tester2).

End DemoBody.

(** ** Predicates the properties are stated with *)

(** Text made of ASCII characters. *)
Fixpoint all_ascii (s : string) : bool :=
  match s with
  | "" => true
  | String c r => (nat_of_ascii c <? 128)%nat && all_ascii r
  end.

Definition teardown_not_set_up : exn :=
  RuntimeError "You can not teardown tester not setup yet.".

Section tester_predicates.
Context `{Tornado}.

(** The handles of a tester are all there. *)
Definition handles_present (t : Tester) : Prop :=
  is_Some (_http_client t) /\ is_Some (_http_server t)
  /\ is_Some (_sock t) /\ is_Some (_last_current t).

(** The handles of a tester are all cleared. *)
Definition handles_cleared (t : Tester) : Prop :=
  _http_client t = None /\ _http_server t = None
  /\ _sock t = None /\ _last_current t = None.

(** An active tester is used and has its handles. *)
Definition active_has_handles (t : Tester) : Prop :=
  _setup t = true -> _used t = true /\ handles_present t.

End tester_predicates.

Section adapter_predicates.
Context {Value Gen : Type}.

(** What the generator did when the adapter finished with [r]. *)
Definition finishing (r : result Value) : @gen_output Value Gen :=
  match r with
  | Ok v => Returned v
  | Raise e => Raised e
  end.

End adapter_predicates.

Module DemoMore.

(** The testers of [Demo], evaluated: fresh, set up, torn down. *)
Definition fresh0 : Tester * World := Eval vm_compute in Demo.fresh_tester.
Definition active0 : Tester * World := Eval vm_compute in Demo.active_tester.
Definition torn0 : Tester * World := Eval vm_compute in Demo.torn_down_tester.

(** A tester asked for a port that cannot be bound, fresh and after the
    [setup] that fails. *)
Definition bad_port_tester : Tester * World :=
  Eval vm_compute in
    __init__ Demo.hello_app (Some 70000%Z) None Demo.demo_client Demo.w0.
Definition bad_port_used : Tester * World :=
  Eval vm_compute in snd (setup bad_port_tester).

(** Keyword arguments whose [files] holds text where a pair should be. *)
Definition scalar_file_kwargs : gmap string arg :=
  <["files" := ADict [(PStr "file", DVal (PStr "Hello"))]]> ∅.

(** The generator of a test that yields, makes loop 2 current and yields
    again, catches what is thrown into it there, yields a third time with
    loop 2 still current, and returns whether it was resumed from that
    yield by a value or by an exception.  Its state counts the yields
    made. *)
Definition stubborn_resume (g : nat) (i : @gen_input pyval) (w : Demo.demo_world)
    : @gen_output pyval nat * Demo.demo_world :=
  match g, i with
  | 0%nat, GNext => (Yielded PNone 1%nat, w)
  | 1%nat, GSend _ =>
      (Yielded PNone 2%nat, {| Demo.current := 2; Demo.fresh := Demo.fresh w |})
  | 2%nat, GThrow _ => (Yielded PNone 3%nat, w)
  | 3%nat, GSend _ => (Returned (PStr "sent"), w)
  | 3%nat, GThrow _ => (Returned (PStr "thrown"), w)
  | _, GThrow e => (Raised e, w)
  | _, _ => (Returned PNone, w)
  end.

(** The generator of a test that yields once and then makes loop 9
    current and returns.  Its state tells whether it has yielded. *)
Definition leaving_resume (g : bool) (i : @gen_input pyval) (w : Demo.demo_world)
    : @gen_output pyval bool * Demo.demo_world :=
  if g then (Returned PNone, {| Demo.current := 9; Demo.fresh := Demo.fresh w |})
  else (Yielded PNone true, w).

(** Keyword arguments with headers of the caller, and with headers that
    are [None]. *)
Definition traced_kwargs : gmap string arg :=
  <["headers" := ADict [(PStr "X-Trace", DVal (PStr "1"))]]> Demo.form_kwargs.
Definition none_headers_kwargs : gmap string arg :=
  <["headers" := AVal PNone]> Demo.form_kwargs.

(** A response that says [gzip], as text. *)
Definition gzip_response : HTTPResponse :=
  {| headers := {["Content-Encoding" := PStr "gzip"]}; body := "null" |}.

End DemoMore.

(** * Properties *)

(** ** Strings *)

Section strings.

Lemma append_cons (c : ascii) (s t : string) : String c s +:+ t = String c (s +:+ t).
Proof. reflexivity. Qed.

Lemma append_nil_l (s : string) : "" +:+ s = s.
Proof. reflexivity. Qed.

Lemma append_nil_r (s : string) : s +:+ "" = s.
Proof. induction s as [|c s IH]; [done |]. by rewrite append_cons, IH. Qed.

Lemma append_assoc (a b c : string) : (a +:+ b) +:+ c = a +:+ (b +:+ c).
Proof. induction a as [|x a IH]; [done |]. by rewrite !append_cons, IH. Qed.

Lemma cut_absent (c : ascii) (s : string) :
  contains c s = false -> cut c s = (s, None).
Proof.
  induction s as [|d s IH]; simpl; [done |].
  destruct (decide (d = c)); [done |].
  intros Hc. by rewrite (IH Hc).
Qed.

Lemma cut_present (c : ascii) (pre post : string) :
  contains c pre = false -> cut c (pre +:+ String c post) = (pre, Some post).
Proof.
  induction pre as [|d pre IH]; intros Hc.
  - change (cut c (String c post) = ("", Some post)). simpl. by rewrite decide_True.
  - simpl in Hc. rewrite append_cons. simpl.
    destruct (decide (d = c)) as [|Hne]; [done |]. by rewrite (IH Hc).
Qed.

(** Every text is cut in exactly one way. *)
Lemma cut_inv (c : ascii) (s : string) :
  contains c (fst (cut c s)) = false /\
  s = fst (cut c s) +:+ match snd (cut c s) with
                         | Some post => String c post
                         | None => ""
                         end.
Proof.
  induction s as [|d s [IH1 IH2]]; simpl; [done |].
  destruct (decide (d = c)) as [->|Hne]; simpl; [done |].
  destruct (cut c s) as [a b]; simpl in *.
  rewrite decide_False by done. split; [done |]. by rewrite append_cons, <- IH2.
Qed.

End strings.

Section query_params.
Context `{Library}.

(** C7. Given keyword parameters, [_add_query_params] puts their URL
    encoding after the part of the URL before the fragment, joined with [&]
    when that part already has a [?] and with [?] otherwise, and puts the
    fragment back after it; given none, it returns the URL as it is.
    Every URL has the form the first part speaks of. *)
Theorem add_query_params_appends (pre : string) (frag : option string)
    (params : list (pyval * dval)) (query : string) :
  contains "#" pre = false ->
  params <> [] ->
  urlencode (ADict params) = Ok query ->
  _add_query_params (pre +:+ fragment_suffix frag) params
    = Ok (pre +:+ (if contains "?" pre then "&" else "?") +:+ query
            +:+ fragment_suffix frag)
  /\ (forall url, _add_query_params url [] = Ok url)
  /\ (forall url, exists pre' frag',
        contains "#" pre' = false /\ url = pre' +:+ fragment_suffix frag').
Proof.
  intros Hpre Hne Henc. split; [| split].
  - unfold _add_query_params.
    destruct params as [|p params]; [done |]. simpl truthy. cbv iota.
    rewrite Henc. unfold split1.
    destruct frag as [f|]; simpl fragment_suffix.
    + change ("#" +:+ f) with (String "#" f).
      rewrite (cut_present _ _ _ Hpre). simpl.
      destruct (contains "?" pre); by rewrite !append_assoc.
    + rewrite append_nil_r, (cut_absent _ _ Hpre). simpl.
      destruct (contains "?" pre); by rewrite !append_nil_r.
  - done.
  - intros url. destruct (cut_inv "#" url) as [H1 H2].
    exists (fst (cut "#" url)), (snd (cut "#" url)). split; [done |].
    rewrite H2 at 1. by destruct (snd (cut "#" url)).
Qed.

End query_params.


(** ** The life cycle of a tester *)

Section lifecycle.
Context `{Library} `{Tornado}.

Ltac mrun :=
  unfold deref, mbind, M_bind, bind, self, assign, call, ask, tell, mret, M_ret, ret, raise in *;
  simpl in *.

Ltac msolve := mrun; repeat (case_match; simplify_eq/=); eauto.

Lemma setup_when_active (t : Tester) (w : World) :
  _setup t = true -> setup (t, w) = (Raise already_set_up, (t, w)).
Proof. intros Ha. unfold setup. mrun. by rewrite Ha. Qed.

Lemma setup_when_used (t : Tester) (w : World) :
  _setup t = false -> _used t = true -> setup (t, w) = (Raise cannot_reuse, (t, w)).
Proof. intros Ha Hu. unfold setup. mrun. by rewrite Ha, Hu. Qed.

Lemma setup_marks_used (s s' : Tester * World) (r : result unit) :
  setup s = (r, s') -> _setup (fst s) = false -> _used (fst s') = true.
Proof.
  destruct s as [t w]. unfold setup. intros Hs Ha. simpl in Ha.
  destruct (_used t) eqn:Hu.
  - revert Hs. mrun. rewrite Ha, Hu. by intros [= <- <-].
  - revert Hs. mrun. rewrite Ha, Hu. intros Hs. repeat (case_match; simplify_eq/=); done.
Qed.

Lemma setup_ok_active (s s' : Tester * World) :
  setup s = (Ok tt, s') -> _setup (fst s') = true /\ _used (fst s') = true.
Proof.
  destruct s as [t w]. unfold setup. mrun.
  intros Hs. repeat (case_match; simplify_eq/=); done.
Qed.

Lemma teardown_ok_inactive (s s' : Tester * World) :
  teardown s = (Ok tt, s') -> _setup (fst s') = false.
Proof.
  destruct s as [t w]. unfold teardown, http_client, http_server, sock. mrun.
  intros Hs. repeat (case_match; simplify_eq/=); done.
Qed.

Lemma setup_keeps_used (s : Tester * World) :
  _used (fst s) = true -> _used (fst (snd (setup s))) = true.
Proof.
  destruct s as [t w]. simpl. intros Hu.
  destruct (_setup t) eqn:Ha.
  - by rewrite setup_when_active.
  - by rewrite setup_when_used.
Qed.

Lemma teardown_keeps_used (s : Tester * World) :
  _used (fst s) = true -> _used (fst (snd (teardown s))) = true.
Proof.
  destruct s as [t w]. unfold teardown, http_client, http_server, sock. mrun.
  intros Hu. repeat (case_match; simplify_eq/=); done.
Qed.

Lemma invoke_keeps_used (m : method) (s : Tester * World) :
  _used (fst s) = true -> _used (fst (invoke m s)) = true.
Proof.
  destruct m; simpl;
    [ apply setup_keeps_used | apply teardown_keeps_used
    | apply setup_keeps_used | apply teardown_keeps_used | .. ];
    destruct s as [t w];
    unfold url_for, base_url, sock, http_server, http_client; mrun;
    intros Hu; repeat (case_match; simplify_eq/=); done.
Qed.

Lemma invoke_all_keeps_used (ms : list method) (s : Tester * World) :
  _used (fst s) = true -> _used (fst (invoke_all ms s)) = true.
Proof.
  revert s. induction ms as [|m ms IH]; intros s Hu; [done |].
  simpl. apply IH. by apply invoke_keeps_used.
Qed.

(** C1. [setup] raises "already setup" on every active tester.  Once a
    [setup] has succeeded, then whatever is called on the tester
    afterwards, in any number and order, every further [setup] raises:
    "already setup" while the tester is active, "can not be reused" when it
    is not, in particular right after a [teardown] that succeeded; the
    tester is never again in the state of a fresh one ([_used] stays
    set).  A [setup] that raises on one of these checks leaves the tester
    as it is. *)
Theorem setup_is_one_shot (s s1 : Tester * World) (ms : list method) :
  setup s = (Ok tt, s1) ->
  (forall t w, _setup t = true -> setup (t, w) = (Raise already_set_up, (t, w)))
  /\ setup s1 = (Raise already_set_up, s1)
  /\ (forall s2, teardown s1 = (Ok tt, s2) -> setup s2 = (Raise cannot_reuse, s2))
  /\ (let s2 := invoke_all ms s1 in
      _used (fst s2) = true
      /\ (forall a p l c w, fst s2 <> fst (__init__ a p l c w))
      /\ setup s2 = (Raise (if _setup (fst s2) then already_set_up else cannot_reuse), s2)).
Proof.
  intros Hs. destruct (setup_ok_active _ _ Hs) as [Ha Hu].
  split; [| split; [| split]].
  - apply setup_when_active.
  - destruct s1 as [t1 w1]. by apply setup_when_active.
  - intros [t2 w2] Ht.
    pose proof (teardown_keeps_used s1 Hu) as Hk. rewrite Ht in Hk.
    apply setup_when_used; [apply (teardown_ok_inactive _ _ Ht) | exact Hk].
  - simpl. pose proof (invoke_all_keeps_used ms s1 Hu) as Hk.
    split; [done |]. split.
    { intros a p l c w Heq. rewrite Heq in Hk. revert Hk.
      unfold __init__. by repeat case_match. }
    destruct (invoke_all ms s1) as [t2 w2]. simpl in *.
    destruct (_setup t2) eqn:Ha2.
    + by apply setup_when_active.
    + by apply setup_when_used.
Qed.


(** C8. On a tester that is not active, the properties [sock],
    [http_server], [http_client] and [base_url] and the method [url_for]
    raise the "should be set up" error and change nothing.  A fresh tester
    is not active, and neither is one whose [teardown] succeeded. *)
Theorem inactive_access_raises :
  (forall (t : Tester) (w : World), _setup t = false ->
     sock (t, w) = (Raise (not_set_up "property"), (t, w))
     /\ http_server (t, w) = (Raise (not_set_up "property"), (t, w))
     /\ http_client (t, w) = (Raise (not_set_up "property"), (t, w))
     /\ base_url (t, w) = (Raise (not_set_up "property"), (t, w))
     /\ forall name_or_url args kwargs,
          url_for name_or_url args kwargs (t, w) = (Raise (not_set_up "method"), (t, w)))
  /\ (forall a p l c w, _setup (fst (__init__ a p l c w)) = false)
  /\ (forall s s', teardown s = (Ok tt, s') -> _setup (fst s') = false).
Proof.
  split; [| split].
  - intros t w Ha.
    unfold sock, http_server, http_client, base_url, url_for. mrun.
    rewrite Ha. simpl. done.
  - intros a p l c w. unfold __init__. by repeat case_match.
  - apply teardown_ok_inactive.
Qed.

(** [base_url] only reads. *)
Lemma base_url_state (s : Tester * World) : snd (base_url s) = s.
Proof.
  destruct s as [t w]. unfold base_url, sock. mrun.
  repeat (case_match; simplify_eq/=); done.
Qed.

(** C2. On an active tester [url_for] chooses its target in this order:
    a name that starts with [http://] or [https://] is the target itself;
    otherwise a name that starts with [/] is put after [base_url];
    otherwise the name is a route, and the path [reverse_url] gives for it
    and the positional arguments is put after [base_url].  The result is
    the target with the keyword parameters added by [_add_query_params],
    which is the target itself when there are none. *)
Theorem url_for_resolution (t : Tester) (w : World) (name_or_url : string)
    (args : list pyval) (kwargs : list (pyval * dval)) :
  _setup t = true ->
  (startswith "http://" name_or_url || startswith "https://" name_or_url = true ->
     url_for name_or_url args kwargs (t, w)
       = (_add_query_params name_or_url kwargs, (t, w)))
  /\ (startswith "http://" name_or_url || startswith "https://" name_or_url = false ->
      forall b, fst (base_url (t, w)) = Ok b ->
      (startswith "/" name_or_url = true ->
         url_for name_or_url args kwargs (t, w)
           = (_add_query_params (b +:+ name_or_url) kwargs, (t, w)))
      /\ (startswith "/" name_or_url = false ->
          forall p, reverse_url (app t) name_or_url args = Ok p ->
          url_for name_or_url args kwargs (t, w)
            = (_add_query_params (b +:+ p) kwargs, (t, w))))
  /\ (forall url, _add_query_params url [] = Ok url).
Proof.
  intros Ha. split; [| split].
  - intros Habs. unfold url_for. mrun. rewrite Ha, Habs. simpl.
    by destruct (_add_query_params name_or_url kwargs).
  - intros Habs b Hb.
    pose proof (base_url_state (t, w)) as Hst.
    destruct (base_url (t, w)) as [rb sb] eqn:Hbase. simpl in Hb, Hst. subst rb sb.
    split.
    + intros Hslash. unfold url_for. mrun. rewrite Ha, Habs, Hslash. simpl.
      rewrite Hbase. by destruct (_add_query_params (b +:+ name_or_url) kwargs).
    + intros Hslash p Hp. unfold url_for. mrun. rewrite Ha, Habs, Hslash. simpl.
      rewrite Hbase, Hp. by destruct (_add_query_params (b +:+ p) kwargs).
  - done.
Qed.

End lifecycle.

(** ** The extended client *)

Section fetch_properties.
Context `{Library}.
Context {Request Callback : Type}.

Lemma dict_get_set_eq (k : pyval) (v : dval) (d : list (pyval * dval)) :
  dict_get k (dict_set k v d) = Some v.
Proof.
  induction d as [|[k' v'] d IH]; simpl.
  - by rewrite decide_True.
  - destruct (decide (k' = k)) as [->|Hne]; simpl.
    + by rewrite decide_True.
    + by rewrite decide_False.
Qed.

Lemma dict_get_set_ne (k k' : pyval) (v : dval) (d : list (pyval * dval)) :
  k <> k' -> dict_get k' (dict_set k v d) = dict_get k' d.
Proof.
  intros Hne. induction d as [|[k0 v0] d IH]; simpl.
  - by rewrite decide_False.
  - destruct (decide (k0 = k)) as [->|Hne0]; simpl.
    + by rewrite !decide_False.
    + destruct (decide (k0 = k')); [done | apply IH].
Qed.

(** [sep.join(lines + [''])] ends every line with [sep]. *)
Lemma join_blank_last (lines : list string) :
  join CRLF (lines ++ [""]) = terminated_lines lines.
Proof.
  unfold join. induction lines as [|l rest IH]; [done |].
  simpl terminated_lines. rewrite <- IH.
  change ((l :: rest) ++ [""]) with (l :: (rest ++ [""])).
  destruct (rest ++ [""]) as [|x xs] eqn:E; [| done].
  by destruct rest.
Qed.

Lemma files_loop_pairs (boundary : string) (files : list (pyval * (pyval * fileobj)))
    (lines : list string) :
  files_loop boundary
    (map (fun f => (fst f, DFile (fst (snd f)) (snd (snd f)))) files) lines
  = Ok (lines ++ flat_map (file_part boundary) files).
Proof.
  revert lines. induction files as [|[k [n f]] files IH]; intros lines; simpl.
  - by rewrite app_nil_r.
  - rewrite IH. unfold file_lines. simpl. by rewrite <- app_assoc.
Qed.

Lemma concat_form_lines (boundary : string) (fields : list (pyval * dval)) :
  List.concat (map (form_lines boundary) fields) = flat_map (field_part boundary) fields.
Proof. induction fields as [|f fields IH]; simpl; [done | by rewrite IH]. Qed.

(** [encode_multipart] produces the format of the specification. *)
Lemma encode_multipart_format (boundary : string) (fields : list (pyval * dval))
    (files : list (pyval * (pyval * fileobj))) :
  encode_multipart (ADict fields) (files_dict files) boundary
  = Ok (multipart_body boundary fields files).
Proof.
  unfold encode_multipart, files_dict, multipart_body. simpl iter_pairs. cbv iota.
  rewrite files_loop_pairs, concat_form_lines.
  change (utf8 (PStr "")) with "".
  by rewrite join_blank_last, <- app_assoc.
Qed.


Lemma lookup_setdefault (k : string) (d : arg) (kwargs : gmap string arg) :
  setdefault k d kwargs !! k = Some (default d (kwargs !! k)).
Proof.
  unfold setdefault. destruct (kwargs !! k) eqn:E; simpl; [done |].
  by rewrite lookup_insert_eq.
Qed.

Lemma lookup_setdefault_ne (k k' : string) (d : arg) (kwargs : gmap string arg) :
  k <> k' -> setdefault k d kwargs !! k' = kwargs !! k'.
Proof.
  intros Hne. unfold setdefault. destruct (kwargs !! k); [done |].
  by rewrite lookup_insert_ne.
Qed.

(** C5, amended. When [form] is given and true (a mapping that is not
    empty), [files] is left out or false, [urlencode] accepts the form and
    the caller's [headers], if any, are a dict, [fetch] asks the base client
    for a request whose method is the caller's or else [POST], whose body is
    the URL-encoded form, whose [Content-Type] is
    [application/x-www-form-urlencoded] and whose [Content-Length] is the
    length of the body. *)
Theorem fetch_form_urlencoded (request : Request) (callback : Callback)
    (raise_error : bool) (kwargs : gmap string arg) (r : Rng)
    (form : arg) (body : string) (d : list (pyval * dval)) :
  kwargs !! "form" = Some form ->
  truthy form = true ->
  truthy (default (AVal PNone) (kwargs !! "files")) = false ->
  urlencode form = Ok body ->
  headers_given kwargs d ->
  exists c, fetch request callback raise_error kwargs r = (Ok c, r)
            /\ sends_urlencoded_form kwargs form c.
Proof.
  intros Hform Htrue Hfiles Henc Hhead.
  unfold fetch, pop. cbv beta iota zeta. rewrite Hform.
  change (default (AVal PNone) (Some form)) with form.
  rewrite lookup_delete_ne by done. rewrite Htrue, Hfiles. simpl andb. cbv iota.
  rewrite !lookup_delete_ne by done.
  unfold headers_given in Hhead. rewrite Hhead, Henc. simpl setitem. cbv iota.
  
  eexists. split; [reflexivity |].
  exists body. unfold method_defaults_to_post, header_of. simpl bf_kwargs.
  rewrite lookup_insert_eq.
  rewrite !lookup_insert_ne by done.
  rewrite lookup_setdefault, !lookup_delete_ne by done.
  repeat split; try done.
  - apply lookup_insert_eq.
  - rewrite dict_get_set_ne by done. apply dict_get_set_eq.
  - apply dict_get_set_eq.
Qed.


(** C3, amended. When [files] is given and not empty, each of its values
    a pair of a file name and a readable object, [form] is left out, false
    or a dict, and the caller's [headers], if any, are a dict, [fetch] draws
    a boundary and asks the base client for a request whose method is the
    caller's or else [POST], whose body is the multipart encoding of the
    form fields and the files with that boundary, every line of it ended by
    CRLF, whose [Content-Type] is [multipart/form-data; boundary=] followed
    by the boundary and whose [Content-Length] is the length of the body in
    bytes. *)
Theorem fetch_files_multipart (request : Request) (callback : Callback)
    (raise_error : bool) (kwargs : gmap string arg) (r : Rng)
    (fields : list (pyval * dval)) (files : list (pyval * (pyval * fileobj)))
    (d : list (pyval * dval)) :
  kwargs !! "files" = Some (files_dict files) ->
  files <> [] ->
  (truthy (default (AVal PNone) (kwargs !! "form")) = false /\ fields = []
   \/ kwargs !! "form" = Some (ADict fields)) ->
  headers_given kwargs d ->
  exists c,
    fetch request callback raise_error kwargs r = (Ok c, snd (random_boundary r))
    /\ sends_multipart kwargs (fst (random_boundary r))
         (multipart_body (fst (random_boundary r)) fields files) c.
Proof.
  intros Hfiles Hne Hform Hhead.
  assert (truthy (files_dict files) = true) as Htrue by (by destruct files).
  set (form := default (AVal PNone) (kwargs !! "form")).
  assert ((if truthy form then form else ADict []) = ADict fields) as Hf.
  { destruct Hform as [[Hfalse ->] | Hsome].
    - subst form. by rewrite Hfalse.
    - subst form. rewrite Hsome. simpl. by destruct fields. }
  unfold fetch, pop. cbv beta iota zeta.
  rewrite !lookup_delete_ne by done. rewrite Hfiles.
  change (default (AVal PNone) (Some (files_dict files))) with (files_dict files).
  fold form. rewrite Htrue, andb_false_r. cbv iota.
  unfold headers_given in Hhead. rewrite Hhead, Hf.
  destruct (random_boundary r) as [boundary r'] eqn:Hb. simpl fst. simpl snd.
  rewrite encode_multipart_format. simpl setitem. cbv iota.
  eexists. split; [reflexivity |].
  unfold sends_multipart, method_defaults_to_post, header_of. simpl bf_kwargs.
  rewrite lookup_insert_eq.
  rewrite !lookup_insert_ne by done.
  rewrite lookup_setdefault, !lookup_delete_ne by done.
  repeat split; try done.
  - apply lookup_insert_eq.
  - rewrite dict_get_set_ne by done. apply dict_get_set_eq.
  - apply dict_get_set_eq.
Qed.

(** C10. Whenever [fetch] reaches the base client, the keyword arguments
    it passes on hold neither [form] nor [files], and every keyword
    argument of the caller other than [form], [files], [headers], [method]
    and [body] is passed on as it was; the request, the callback and
    [raise_error] are passed on too.  [fetch] reaches the base client, with
    all the other keyword arguments untouched, whenever [form] and [files]
    are both left out or false. *)
Theorem fetch_forwards_other_kwargs (request : Request) (callback : Callback)
    (raise_error : bool) (kwargs : gmap string arg) (r r' : Rng)
    (c : base_fetch Request Callback) :
  fetch request callback raise_error kwargs r = (Ok c, r') ->
  bf_kwargs c !! "form" = None
  /\ bf_kwargs c !! "files" = None
  /\ (forall k : string,
        k <> "form" -> k <> "files" -> k <> "headers" -> k <> "method" -> k <> "body" ->
        bf_kwargs c !! k = kwargs !! k)
  /\ bf_request c = request /\ bf_callback c = callback
  /\ bf_raise_error c = raise_error
  /\ (truthy (default (AVal PNone) (kwargs !! "form")) = false ->
      truthy (default (AVal PNone) (kwargs !! "files")) = false ->
      bf_kwargs c = delete "files" (delete "form" kwargs)).
Proof.
  unfold fetch, pop. cbv beta iota zeta.
  rewrite !lookup_delete_ne by done.
  set (form := default (AVal PNone) (kwargs !! "form")).
  set (files := default (AVal PNone) (kwargs !! "files")).
  destruct (truthy form) eqn:Hform; destruct (truthy files) eqn:Hfiles;
    simpl andb; cbv iota; intros Hfetch;
    repeat case_match; simplify_eq/=;
    (split; [| split; [| split; [| split; [| split; [| split]]]]]);
    try done;
    try (intros k ? ? ? ? ?);
    rewrite ?lookup_insert_ne by done;
    rewrite ?lookup_setdefault_ne by done;
    rewrite ?lookup_delete_ne by done;
    rewrite ?lookup_delete_eq; done.
Qed.

End fetch_properties.

(** ** Decoding helpers *)

Section encoding_properties.
Context `{Library}.

(** The branches of [encoding] that return: a [Content-Encoding] held as
    bytes is decoded; without [Content-Encoding], the charset parameter of
    a textual [Content-Type] is returned, [utf-8] when it has none being
    the default handed to the parser; without both headers the answer is
    [utf-8]. *)
Lemma encoding_priority (response : HTTPResponse) :
  (forall b, headers response !! "Content-Encoding" = Some (PBytes b) ->
     encoding response = bytes_decode b)
  /\ (headers response !! "Content-Encoding" = None ->
      (forall v, headers response !! "Content-Type" = Some (PStr v) ->
         encoding response = Ok (get_param_charset v "utf-8"))
      /\ (headers response !! "Content-Type" = None ->
          encoding response = Ok "utf-8")).
Proof.
  unfold encoding. split; [| intros Hce; split].
  - by intros b ->.
  - intros v Hct. by rewrite Hce, Hct.
  - intros Hct. by rewrite Hce, Hct.
Qed.

(** A [Content-Encoding] held as text, which is how Tornado holds header
    values, makes [encoding] raise: [str] has no [decode]. *)
Lemma encoding_text_header_raises (response : HTTPResponse) (v : string) :
  headers response !! "Content-Encoding" = Some (PStr v) ->
  encoding response = Raise (AttributeError "'str' object has no attribute 'decode'").
Proof. unfold encoding. by intros ->. Qed.

(** C6. On a response whose [Content-Encoding] is the text [gzip],
    [encoding] does not return the value of the header: it raises. *)
Theorem encoding_gzip_raises :
  encoding {| headers := {["Content-Encoding" := PStr "gzip"]}; body := "" |}
  = Raise (AttributeError "'str' object has no attribute 'decode'").
Proof. reflexivity. Qed.

End encoding_properties.

(** ** The adapter *)

Section gen_test_properties.
Context `{Tornado}.
Context {Args Value Gen : Type}.
Variable resume : Gen -> @gen_input Value -> World -> @gen_output Value Gen * World.
Variable await : IOLoop -> Value -> World -> result Value * World.

(** The state of [with_ioloop] after [n] turns. *)
Lemma pump_run_S (io_loop : IOLoop) (n : nat) (p : @pump _ Value Gen) :
  Nat.iter (S n) (pump_step resume await io_loop) p
  = pump_step resume await io_loop (Nat.iter n (pump_step resume await io_loop) p).
Proof. reflexivity. Qed.

(** [with_ioloop] returns what the turns arrive at. *)
Lemma with_ioloop_iter (io_loop : IOLoop) (fuel : nat) (p : @pump _ Value Gen)
    (r : result Value) (w : World) :
  Nat.iter fuel (pump_step resume await io_loop) p = Finished r w ->
  with_ioloop resume await fuel io_loop p = Some (r, w).
Proof.
  revert p. induction fuel as [|fuel IH]; intros p Hp.
  - simpl in Hp. by subst p.
  - destruct p as [value g w0 | r0 w0].
    + simpl with_ioloop. apply IH.
      rewrite <- Hp. clear. induction fuel as [|fuel IH]; [done |].
      rewrite (pump_run_S _ (S fuel)), <- IH. done.
    + assert (forall n, Nat.iter n (pump_step resume await io_loop)
                (Finished r0 w0 : @pump _ Value Gen) = Finished r0 w0) as Hfix.
      { induction n as [|n IHn]; [done |]. by rewrite pump_run_S, IHn. }
      rewrite Hfix in Hp. by simplify_eq.
Qed.

(** One turn: the comparison is made on what the generator answers to
    what the loop handed back. *)
Lemma pump_step_checks_loop (io_loop : IOLoop)
    (value : Value) (generator : Gen) (w : World)
    (received : result Value) (w1 : World)
    (value' : Value) (generator' : Gen) (w2 : World) :
  await io_loop value w = (received, w1) ->
  resume generator (pass_on received) w1 = (Yielded value' generator', w2) ->
  pump_step resume await io_loop (Awaiting value generator w)
  = if decide (IOLoop_current w2 <> io_loop)
    then resumed (resume generator' (GThrow multiple_loops) w2)
    else Awaiting value' generator' w2.
Proof. intros Haw Hres. unfold pump_step. by rewrite Haw, Hres. Qed.

Lemma pump_step_finished_fix (io_loop : IOLoop) (n : nat) (r : result Value) (w : World) :
  Nat.iter n (pump_step resume await io_loop) (Finished r w : @pump _ Value Gen)
  = Finished r w.
Proof. induction n as [|n IH]; [done |]. by rewrite pump_run_S, IH. Qed.

Lemma pump_run_shift (io_loop : IOLoop) (n : nat) (p : @pump _ Value Gen) :
  Nat.iter n (pump_step resume await io_loop) (pump_step resume await io_loop p)
  = Nat.iter (S n) (pump_step resume await io_loop) p.
Proof. induction n as [|n IH]; [done |]. by rewrite pump_run_S, IH. Qed.

(** Running [n] turns and then [fuel] more is running [n + fuel]. *)
Lemma with_ioloop_after (io_loop : IOLoop) (n fuel : nat) (p : @pump _ Value Gen) :
  with_ioloop resume await (n + fuel) io_loop p
  = with_ioloop resume await fuel io_loop
      (Nat.iter n (pump_step resume await io_loop) p).
Proof.
  revert p. induction n as [|n IH]; intros p; [done |].
  destruct p as [value g w | r w].
  - change (with_ioloop resume await (S n + fuel) io_loop (Awaiting value g w))
      with (with_ioloop resume await (n + fuel) io_loop
              (pump_step resume await io_loop (Awaiting value g w))).
    by rewrite IH, pump_run_shift.
  - rewrite pump_step_finished_fix. by destruct fuel.
Qed.

(** C4, amended. [gen_test] drives a generator test as follows.  The
    loop that is current when the generator first suspends is captured.
    At every turn of the adapter, the first and every later one, what the
    loop hands back for the yielded value is sent into the generator, or
    thrown into it when it is an exception; when the generator yields
    again, the current loop is compared with the captured one.  When they
    differ, the multiple-loops error is thrown into the generator as it
    stands then, and the test goes on from what the generator answers
    instead of awaiting what it had yielded; when they are the same the
    test goes on awaiting what was yielded.  The outcome of the test is
    the outcome of going on in that way, with the captured loop current
    at the end.  No comparison is made on what the generator answers to
    the error the adapter itself throws. *)
Theorem gen_test_checks_loop_every_turn (mk : Args -> Gen) (args : Args) (w : World)
    (first : Value) (g0 : Gen) (w0 : World) (n fuel : nat)
    (value : Value) (generator : Gen) (wn : World)
    (received : result Value) (w1 : World)
    (value' : Value) (generator' : Gen) (w2 : World) :
  resume (mk args) GNext w = (Yielded first g0, w0) ->
  Nat.iter n (pump_step resume await (IOLoop_current w0))
    (Awaiting first g0 (make_current (IOLoop_current w0) w0))
    = Awaiting value generator wn ->
  await (IOLoop_current w0) value wn = (received, w1) ->
  resume generator (pass_on received) w1 = (Yielded value' generator', w2) ->
  gen_test resume await (GeneratorFunction mk) (S n + fuel) args w
  = loop_stopped (IOLoop_current w0)
      (with_ioloop resume await fuel (IOLoop_current w0)
         (if decide (IOLoop_current w2 <> IOLoop_current w0)
          then resumed (resume generator' (GThrow multiple_loops) w2)
          else Awaiting value' generator' w2))
  /\ throws_on_mismatch resume (IOLoop_current w0)
       (resume generator (pass_on received) w1)
       (pump_step resume await (IOLoop_current w0) (Awaiting value generator wn)).
Proof.
  intros Hfirst Hn Haw Hres. split.
  - unfold gen_test, wrapper. rewrite Hfirst. cbv zeta. unfold run_sync.
    rewrite (with_ioloop_after _ (S n) fuel), pump_run_S, Hn.
    by rewrite (pump_step_checks_loop _ _ _ _ _ _ _ _ _ Haw Hres).
  - intros v g w' Ho Hcur. rewrite Hres in Ho. injection Ho as <- <- <-.
    rewrite (pump_step_checks_loop _ _ _ _ _ _ _ _ _ Haw Hres).
    by rewrite decide_True.
Qed.

(** C9. Wrapped by [gen_test], a function that is not a generator
    function is called with the arguments of the call and what it returns
    or raises is the outcome, whatever the bound on turns: nothing is
    awaited and the world is the one the function leaves. *)
Theorem plain_function_passthrough (f : Args -> World -> result Value * World)
    (fuel : nat) (args : Args) (w : World) :
  gen_test resume await (Function f) fuel args w = Some (f args w).
Proof. reflexivity. Qed.

End gen_test_properties.

(** ** The theorems on test inputs *)

Section examples.
Import Demo.

(** The theorem at a URL with a query string and a fragment. *)
Lemma add_query_params_appends_witness :
  _add_query_params ("http://h/p?x=1" +:+ fragment_suffix (Some "top"))
                    [(PStr "q", DVal (PInt 3))]
  = Ok "http://h/p?x=1&q=3#top".
Proof.
  refine (proj1 (add_query_params_appends "http://h/p?x=1" (Some "top")
            [(PStr "q", DVal (PInt 3))] "q=3" _ _ _)).
  - reflexivity.
  - discriminate.
  - reflexivity.
Defined.

(** A fresh tester is set up; [teardown] and a further [setup] follow. *)
Lemma setup_is_one_shot_witness :
  setup fresh_tester = (Ok tt, active_tester)
  /\ setup active_tester = (Raise already_set_up, active_tester)
  /\ setup torn_down_tester = (Raise cannot_reuse, torn_down_tester)
  /\ _used (fst (invoke_all [m_teardown; m_setup; m_base_url] active_tester)) = true.
Proof.
  pose proof (setup_is_one_shot fresh_tester active_tester
                [m_teardown; m_setup; m_base_url] eq_refl) as (_ & H1 & H2 & H3 & _).
  split; [reflexivity |]. split; [exact H1 |]. split; [| exact H3].
  apply H2. reflexivity.
Defined.

(** A fresh tester and a torn-down one. *)
Lemma inactive_access_raises_witness :
  base_url (fst fresh_tester, snd fresh_tester)
    = (Raise (not_set_up "property"), fresh_tester)
  /\ url_for "/hello" [] [] (fst torn_down_tester, snd torn_down_tester)
     = (Raise (not_set_up "method"), torn_down_tester).
Proof.
  destruct inactive_access_raises as (Hraise & _ & _).
  split.
  - exact (proj1 (proj2 (proj2 (proj2
             (Hraise (fst fresh_tester) (snd fresh_tester) eq_refl))))).
  - exact (proj2 (proj2 (proj2 (proj2
             (Hraise (fst torn_down_tester) (snd torn_down_tester) eq_refl))))
             "/hello" [] []).
Defined.

(** The three ways of [test_url_for]. *)
Lemma url_for_resolution_witness :
  url_for "hello" [] [] (fst active_tester, snd active_tester)
    = (Ok "http://127.0.0.1:10002/hello", active_tester)
  /\ url_for "/hello2" [] [] (fst active_tester, snd active_tester)
    = (Ok "http://127.0.0.1:10002/hello2", active_tester)
  /\ url_for "https://www.google.com/api" [] [] (fst active_tester, snd active_tester)
    = (Ok "https://www.google.com/api", active_tester).
Proof.
  split; [| split].
  - exact (proj2 (proj1 (proj2 (url_for_resolution (fst active_tester) (snd active_tester)
             "hello" [] [] eq_refl)) eq_refl "http://127.0.0.1:10002" eq_refl)
             eq_refl "/hello" eq_refl).
  - exact (proj1 (proj1 (proj2 (url_for_resolution (fst active_tester) (snd active_tester)
             "/hello2" [] [] eq_refl)) eq_refl "http://127.0.0.1:10002" eq_refl)
             eq_refl).
  - exact (proj1 (url_for_resolution (fst active_tester) (snd active_tester)
             "https://www.google.com/api" [] [] eq_refl) eq_refl).
Defined.

(** [url_for('hello', query='b z')] on the same tester. *)
Example url_for_with_query :
  fst (url_for "hello" [] [(PStr "query", DVal (PStr "b z"))] active_tester)
  = Ok "http://127.0.0.1:10002/hello?query=b+z".
Proof. reflexivity. Qed.

(** A tester given a port that cannot be bound: [setup] raises, the tester
    is used up without ever having been active. *)
Example setup_failure_uses_up :
  let s := __init__ hello_app (Some 70000%Z) None demo_client w0 in
  fst (setup s) = Raise (External "OverflowError")
  /\ _setup (fst (snd (setup s))) = false
  /\ fst (setup (snd (setup s))) = Raise cannot_reuse.
Proof. repeat split. Qed.

(** The upload of [test_fileupload]. *)
Lemma fetch_files_multipart_witness :
  exists c,
    fetch "/hello" tt true upload_kwargs [0] = (Ok c, [])
    /\ sends_multipart upload_kwargs "---aaaaaaaaaaaaaaaaaaaa---"
         (multipart_body "---aaaaaaaaaaaaaaaaaaaa---" [] upload) c.
Proof.
  exact (fetch_files_multipart "/hello" tt true upload_kwargs [0] [] upload []
           eq_refl ltac:(discriminate) (or_introl (conj eq_refl eq_refl)) eq_refl).
Defined.

(** The bytes of that upload. *)
Example upload_body :
  multipart_body "---x---" [(PStr "a", DVal (PInt 1))] upload
  = "-----x---" +:+ CRLF
    +:+ "Content-Disposition: form-data; name=" +:+ dquote +:+ "a" +:+ dquote +:+ CRLF
    +:+ CRLF
    +:+ "1" +:+ CRLF
    +:+ "-----x---" +:+ CRLF
    +:+ "Content-Disposition: form-data; name=" +:+ dquote +:+ "file" +:+ dquote
    +:+ "; filename=" +:+ dquote +:+ "hello.txt" +:+ dquote +:+ CRLF
    +:+ CRLF
    +:+ "Hello" +:+ CRLF
    +:+ "-----x-----" +:+ CRLF.
Proof. reflexivity. Qed.

(** C3, as stated, fails on [files={}]: the base client is called with no
    method and no body. *)
Lemma fetch_empty_files_counterexample :
  fetch "/hello" tt true (<["files" := ADict []]> ∅) [0]
    = (Ok (BaseFetch "/hello" tt true ∅), [0])
  /\ ~ exists boundary body,
        sends_multipart (<["files" := ADict []]> ∅) boundary body
          (BaseFetch "/hello" tt true ∅).
Proof.
  split; [reflexivity |].
  intros (boundary & body & Hm & _). unfold method_defaults_to_post in Hm.
  simpl bf_kwargs in Hm. rewrite lookup_empty in Hm. discriminate.
Qed.

(** A form of one field. *)
Lemma fetch_form_urlencoded_witness :
  exists c,
    fetch "/hello" tt true form_kwargs [0] = (Ok c, [0])
    /\ sends_urlencoded_form form_kwargs (ADict [(PStr "a", DVal (PStr "b c"))]) c.
Proof.
  exact (fetch_form_urlencoded "/hello" tt true form_kwargs [0]
           (ADict [(PStr "a", DVal (PStr "b c"))]) "a=b+c" []
           eq_refl eq_refl eq_refl eq_refl eq_refl).
Defined.

(** C5, as stated, fails on [form={}]: the base client is called with no
    method, no body and no headers. *)
Lemma fetch_empty_form_counterexample :
  fetch "/hello" tt true (<["form" := ADict []]> ∅) [0]
    = (Ok (BaseFetch "/hello" tt true ∅), [0])
  /\ ~ sends_urlencoded_form (<["form" := ADict []]> ∅) (ADict [])
        (BaseFetch "/hello" tt true ∅).
Proof.
  split; [reflexivity |].
  intros (body & _ & Hm & _). unfold method_defaults_to_post in Hm.
  simpl bf_kwargs in Hm. rewrite lookup_empty in Hm. discriminate.
Qed.

(** The timeout of the caller reaches the base client; [form] does
    not. *)
Lemma fetch_forwards_other_kwargs_witness :
  exists c,
    fetch "/hello" tt true form_kwargs [0] = (Ok c, [0])
    /\ bf_kwargs c !! "form" = None
    /\ bf_kwargs c !! "request_timeout" = Some (AVal (PInt 5)).
Proof.
  eexists. split; [reflexivity |].
  pose proof (fetch_forwards_other_kwargs "/hello" tt true form_kwargs [0] [0] _ eq_refl)
    as (Hform & _ & Hother & _).
  split; [exact Hform |].
  rewrite Hother by discriminate. reflexivity.
Defined.

(** A test that switches to loop 2 at its third yield: the turn that
    finds loop 2 current throws into the generator, which ends; the
    captured loop 1 is current when [gen_test] returns. *)
Lemma gen_test_checks_loop_every_turn_witness :
  gen_test (Args := unit) demo_resume demo_await
    (GeneratorFunction (fun _ => [1; 1; 2; 1])) 2 tt w0
  = Some (Ok PNone, {| current := 1; fresh := 1 |}).
Proof.
  exact (proj1 (gen_test_checks_loop_every_turn demo_resume demo_await
                  (fun _ : unit => [1; 1; 2; 1]) tt w0
                  PNone [1; 2; 1] {| current := 1; fresh := 1 |} 1 0
                  PNone [2; 1] {| current := 1; fresh := 1 |}
                  (Ok (PInt 1)) {| current := 1; fresh := 1 |}
                  PNone [1] {| current := 2; fresh := 1 |}
                  eq_refl eq_refl eq_refl eq_refl)).
Defined.

(** C4, as stated, fails on the error the adapter throws itself: the
    test of [DemoMore.stubborn_resume] catches it and yields again with
    loop 2 still current, where loop 0 was captured.  That is an exception
    thrown into the generator after which the loops differ, and the adapter
    does not throw again: it awaits what was yielded and sends the result,
    so the test returns [sent]. *)
Lemma own_throw_not_checked_counterexample :
  gen_test (Args := unit) DemoMore.stubborn_resume demo_await
    (GeneratorFunction (fun _ => 0%nat)) 2 tt w0
  = Some (Ok (PStr "sent"), w0)
  /\ pump_step DemoMore.stubborn_resume demo_await 0 (Awaiting PNone 1%nat w0)
     = resumed (DemoMore.stubborn_resume 2 (GThrow multiple_loops)
                  {| current := 2; fresh := 1 |})
  /\ ~ throws_on_mismatch DemoMore.stubborn_resume 0
        (DemoMore.stubborn_resume 2 (GThrow multiple_loops) {| current := 2; fresh := 1 |})
        (resumed (DemoMore.stubborn_resume 2 (GThrow multiple_loops)
                    {| current := 2; fresh := 1 |})).
Proof.
  split; [reflexivity |]. split; [reflexivity |].
  intros Hclaim.
  specialize (Hclaim PNone 3%nat {| current := 2; fresh := 1 |} eq_refl).
  assert (IOLoop_current {| current := 2; fresh := 1 |} <> 0%nat) as Hne by discriminate.
  specialize (Hclaim Hne). discriminate.
Qed.

(** The same test through [gen_test]. *)
Example wrapper_switching_loops :
  gen_test (Args := unit) demo_resume demo_await
    (GeneratorFunction (fun _ => [1; 1; 2; 1])) 5 tt w0
  = Some (Ok PNone, {| current := 1; fresh := 1 |}).
Proof. reflexivity. Qed.

(** [test_general_function]. *)
Example wrapper_plain_function :
  gen_test (Args := unit) demo_resume demo_await
    (Function (fun _ w => (Ok (PBool true), w))) 0 tt w0
  = Some (Ok (PBool true), w0).
Proof. reflexivity. Qed.

(** The charset examples of the specification. *)
Example encoding_examples :
  encoding {| headers := ∅; body := "" |} = Ok "utf-8"
  /\ encoding {| headers := {["Content-Type" := PStr "text/plain; charset=iso-8859-1"]};
                body := "" |} = Ok "iso-8859-1"
  /\ encoding {| headers := {["Content-Type" := PStr "text/plain"]}; body := "" |}
     = Ok "utf-8".
Proof. repeat split. Qed.

End examples.

(** * Further properties *)

(** ** The tester: states, handles, loops *)

Section tester_states.
Context `{Library} `{Tornado}.

Ltac mstep :=
  unfold deref, mbind, M_bind, bind, self, assign, call, ask, tell, mret, M_ret, ret, raise in *;
  simpl in *.

Lemma setup_ok_fields (s s' : Tester * World) :
  setup s = (Ok tt, s') ->
  _setup (fst s) = false /\ _used (fst s) = false
  /\ _setup (fst s') = true /\ _used (fst s') = true
  /\ handles_present (fst s')
  /\ _last_current (fst s') = Some (IOLoop_current (snd s))
  /\ is_Some (port (fst s'))
  /\ app (fst s') = app (fst s) /\ io_loop (fst s') = io_loop (fst s).
Proof.
  destruct s as [t w]. unfold setup, handles_present. mstep.
  intros Hs. repeat (case_match; simplify_eq/=); repeat split; eauto.
Qed.

Lemma setup_raise_fields (s s' : Tester * World) (e : exn) :
  setup s = (Raise e, s') ->
  _setup (fst s') = _setup (fst s)
  /\ (_setup (fst s) = false -> _used (fst s') = true).
Proof.
  destruct s as [t w]. unfold setup. mstep.
  intros Hs. repeat (case_match; simplify_eq/=); repeat split; eauto; congruence.
Qed.

Lemma teardown_when_inactive (t : Tester) (w : World) :
  _setup t = false -> teardown (t, w) = (Raise teardown_not_set_up, (t, w)).
Proof. intros Ha. unfold teardown. mstep. by rewrite Ha. Qed.

Lemma teardown_ok_fields (s s' : Tester * World) :
  teardown s = (Ok tt, s') ->
  _setup (fst s) = true /\ _setup (fst s') = false
  /\ handles_cleared (fst s')
  /\ _used (fst s') = _used (fst s)
  /\ port (fst s') = port (fst s)
  /\ exists l w, _last_current (fst s) = Some l /\ snd s' = make_current l w.
Proof.
  destruct s as [t w]. unfold teardown, http_client, http_server, sock, handles_cleared.
  mstep. intros Hs. repeat (case_match; simplify_eq/=); repeat split; eauto.
  by apply negb_false_iff.
Qed.

Lemma teardown_raise_fields (s s' : Tester * World) (e : exn) :
  teardown s = (Raise e, s') -> fst s' = fst s.
Proof.
  destruct s as [t w]. unfold teardown, http_client, http_server, sock.
  mstep. intros Hs. repeat (case_match; simplify_eq/=); done.
Qed.


Lemma startswith_append (p x : string) : startswith p (p +:+ x) = true.
Proof.
  unfold startswith. induction p as [|c p IH].
  - by destruct x.
  - rewrite append_cons. simpl. by destruct (ascii_dec c c).
Qed.

Lemma accessor_states (s : Tester * World) :
  snd (sock s) = s /\ snd (http_server s) = s /\ snd (http_client s) = s.
Proof.
  destruct s as [t w]. unfold sock, http_server, http_client. mstep.
  by destruct (_setup t).
Qed.

Lemma url_for_state (name_or_url : string) (args : list pyval)
    (kwargs : list (pyval * dval)) (s : Tester * World) :
  snd (url_for name_or_url args kwargs s) = s.
Proof.
  destruct s as [t w]. unfold url_for, base_url, sock. mstep.
  repeat (case_match; simplify_eq/=); done.
Qed.

Lemma base_url_ok_prefix (s : Tester * World) (b : string) :
  fst (base_url s) = Ok b -> _setup (fst s) = true /\ exists rest, b = "http://" +:+ rest.
Proof.
  destruct s as [t w]. unfold base_url, sock. mstep.
  intros Hb. repeat (case_match; simplify_eq/=).
  split; [by apply negb_false_iff | eauto].
Qed.

Lemma url_for_ok_active (name_or_url : string) (args : list pyval)
    (kwargs : list (pyval * dval)) (s : Tester * World) (u : string) :
  fst (url_for name_or_url args kwargs s) = Ok u -> _setup (fst s) = true.
Proof.
  destruct s as [t w]. unfold url_for. mstep.
  destruct (_setup t); [done |]. simpl. discriminate.
Qed.

(** X1. [setup] records the loop that is current and [teardown] makes it
    current again: after a [setup] and a [teardown] of the same tester that
    both succeed, whatever happened to the world in between, the current
    loop is the one that was current before [setup], provided that
    [make_current] does make its loop the current one. *)
Theorem teardown_restores_loop (s s1 s2 : Tester * World) (w : World) :
  (forall l w', IOLoop_current (make_current l w') = l) ->
  setup s = (Ok tt, s1) ->
  teardown (fst s1, w) = (Ok tt, s2) ->
  IOLoop_current (snd s2) = IOLoop_current (snd s).
Proof.
  intros Hlaw Hs Ht.
  destruct (setup_ok_fields _ _ Hs) as (_ & _ & _ & _ & _ & Hlast & _).
  destruct (teardown_ok_fields _ _ Ht) as (_ & _ & _ & _ & _ & l & w' & Hl & Hw).
  simpl in Hl. rewrite Hlast in Hl. injection Hl as <-. by rewrite Hw, Hlaw.
Qed.

(** X2. A [teardown] that succeeds clears the four handles, keeps the
    port, and leaves a tester on which a second [teardown] raises and
    changes nothing. *)
Theorem teardown_is_final (s s' : Tester * World) :
  teardown s = (Ok tt, s') ->
  handles_cleared (fst s')
  /\ port (fst s') = port (fst s)
  /\ teardown s' = (Raise teardown_not_set_up, s').
Proof.
  intros Ht.
  destruct (teardown_ok_fields _ _ Ht) as (_ & Hoff & Hclr & _ & Hport & _).
  split; [done |]. split; [done |].
  destruct s' as [t' w']. by apply teardown_when_inactive.
Qed.

(** X3. A [teardown] that raises, on a tester that was not set up or
    because closing the client, stopping the server or closing the socket
    failed, changes no attribute of the tester: it stays active if it was,
    with its handles, and nothing is cleared. *)
Theorem teardown_failure_keeps_tester (s s' : Tester * World) (e : exn) :
  teardown s = (Raise e, s') -> fst s' = fst s.
Proof. apply teardown_raise_fields. Qed.

(** X4. A [setup] that succeeds started from a tester that was neither
    active nor used, and leaves it with a client, a server, a socket and
    the loop that was current before the call, with a port, and with the
    application and the loop it was built with. *)
Theorem setup_success_state (s s' : Tester * World) :
  setup s = (Ok tt, s') ->
  _setup (fst s) = false /\ _used (fst s) = false
  /\ handles_present (fst s')
  /\ _last_current (fst s') = Some (IOLoop_current (snd s))
  /\ is_Some (port (fst s'))
  /\ app (fst s') = app (fst s) /\ io_loop (fst s') = io_loop (fst s).
Proof.
  intros Hs.
  destruct (setup_ok_fields _ _ Hs) as (? & ? & _ & _ & ? & ? & ? & ? & ?).
  done.
Qed.

(** X5. A [setup] that fails after its two checks, because the framework
    raised, uses the tester up without activating it: a further [setup]
    raises "can not be reused" and [teardown] raises too, so what the
    failed [setup] had created is not released through the tester. *)
Theorem failed_setup_uses_up (s s' : Tester * World) (e : exn) :
  _setup (fst s) = false ->
  setup s = (Raise e, s') ->
  _setup (fst s') = false /\ _used (fst s') = true
  /\ setup s' = (Raise cannot_reuse, s')
  /\ teardown s' = (Raise teardown_not_set_up, s').
Proof.
  intros Ha Hs.
  destruct (setup_raise_fields _ _ _ Hs) as [Hsame Hused].
  rewrite Ha in Hsame. specialize (Hused Ha).
  destruct s' as [t' w']. simpl in *.
  split; [done |]. split; [done |]. split.
  - by apply setup_when_used.
  - by apply teardown_when_inactive.
Qed.

(** X6. The properties [sock], [http_server], [http_client] and
    [base_url] and the method [url_for] never change the tester or the
    world, whether they return or raise. *)
Theorem accessors_read_only (s : Tester * World) :
  snd (sock s) = s /\ snd (http_server s) = s /\ snd (http_client s) = s
  /\ snd (base_url s) = s
  /\ forall name_or_url args kwargs, snd (url_for name_or_url args kwargs s) = s.
Proof.
  destruct (accessor_states s) as (? & ? & ?).
  repeat split; try done.
  - apply base_url_state.
  - intros. apply url_for_state.
Qed.

(** X7. What [url_for] returns without keyword parameters is a URL that
    [url_for] returns as it is: resolving twice is resolving once. *)
Theorem url_for_idempotent (name_or_url : string) (args args' : list pyval)
    (s : Tester * World) (u : string) :
  fst (url_for name_or_url args [] s) = Ok u ->
  url_for u args' [] s = (Ok u, s).
Proof.
  intros Hu. pose proof (url_for_ok_active _ _ _ _ _ Hu) as Ha.
  destruct s as [t w]. simpl in Ha.
  assert (startswith "http://" u || startswith "https://" u = true) as Habs.
  { pose proof (base_url_ok_prefix (t, w)) as Hpre.
    pose proof (base_url_state (t, w)) as Hst.
    destruct (base_url (t, w)) as [rb sb] eqn:Hbase. simpl in Hst, Hpre. subst sb.
    revert Hu. unfold url_for. mstep. rewrite Ha. simpl.
    destruct (startswith "http://" name_or_url || startswith "https://" name_or_url)
      eqn:Hn.
    - simpl. unfold _add_query_params. simpl. by intros [= <-].
    - destruct (startswith "/" name_or_url).
      + rewrite Hbase. destruct rb as [b|e']; simpl; [| discriminate].
        destruct (Hpre b eq_refl) as (_ & rest & ->).
        unfold _add_query_params. simpl.
        intros [= <-]. by rewrite append_assoc, startswith_append.
      + rewrite Hbase. destruct rb as [b|e']; simpl; [| discriminate].
        destruct (Hpre b eq_refl) as (_ & rest & ->).
        destruct (reverse_url (app t) name_or_url args); simpl; [| discriminate].
        unfold _add_query_params. simpl.
        intros [= <-]. by rewrite append_assoc, startswith_append. }
  unfold url_for. mstep. by rewrite Ha, Habs.
Qed.

(** X8. On an active tester, for a name that is no absolute URL: when
    [base_url] raises, [url_for] raises the same exception; and for a route
    name that the application does not know, [url_for] raises what
    [reverse_url] raises.  The tester and the world are left as they
    were. *)
Theorem url_for_errors (t : Tester) (w : World) (name_or_url : string)
    (args : list pyval) (kwargs : list (pyval * dval)) (e : exn) :
  _setup t = true ->
  startswith "http://" name_or_url || startswith "https://" name_or_url = false ->
  (fst (base_url (t, w)) = Raise e ->
     url_for name_or_url args kwargs (t, w) = (Raise e, (t, w)))
  /\ (forall b, fst (base_url (t, w)) = Ok b ->
      startswith "/" name_or_url = false ->
      reverse_url (app t) name_or_url args = Raise e ->
      url_for name_or_url args kwargs (t, w) = (Raise e, (t, w))).
Proof.
  intros Ha Habs.
  pose proof (base_url_state (t, w)) as Hst.
  split.
  - intros Hb. destruct (base_url (t, w)) as [rb sb] eqn:Hbase.
    simpl in Hb, Hst. subst rb sb.
    unfold url_for. mstep. rewrite Ha, Habs. simpl.
    destruct (startswith "/" name_or_url); by rewrite Hbase.
  - intros b Hb Hslash Hrev. destruct (base_url (t, w)) as [rb sb] eqn:Hbase.
    simpl in Hb, Hst. subst rb sb.
    unfold url_for. mstep. rewrite Ha, Habs, Hslash. simpl.
    by rewrite Hbase, Hrev.
Qed.


Lemma invoke_keeps_handles (m : method) (s : Tester * World) :
  active_has_handles (fst s) -> active_has_handles (fst (invoke m s)).
Proof.
  intros Hinv.
  assert (active_has_handles (fst (snd (setup s)))) as Hsetup.
  { destruct (setup s) as [[[]|e] s'] eqn:Hs; simpl.
    - destruct (setup_ok_fields _ _ Hs) as (_ & _ & _ & ? & ? & _). by intros _.
    - destruct (setup_raise_fields _ _ _ Hs) as [Hsame _].
      destruct (_setup (fst s)) eqn:Ha.
      + destruct s as [t w]. simpl in Ha.
        rewrite (setup_when_active _ _ Ha) in Hs. by injection Hs as _ <-.
      + intros Hact. congruence. }
  assert (active_has_handles (fst (snd (teardown s)))) as Hteardown.
  { destruct (teardown s) as [[[]|e] s'] eqn:Ht; simpl.
    - destruct (teardown_ok_fields _ _ Ht) as (_ & Hoff & _). intros Hact. congruence.
    - by rewrite (teardown_raise_fields _ _ _ Ht). }
  destruct (accessor_states s) as (Hk & Hserver & Hclient).
  destruct m; simpl; try done.
  - by rewrite Hk.
  - by rewrite Hserver.
  - by rewrite Hclient.
  - by rewrite base_url_state.
  - by rewrite url_for_state.
Qed.

(** X9. However a tester is used from its construction on, by any
    sequence of its methods, whenever it is active it has been marked as
    used and it holds a client, a server, a socket and the loop to restore:
    on an active tester the properties do not return [None] and [teardown]
    finds what it has to close. *)
Theorem active_tester_has_handles (a : Application) (p : option Z)
    (l : option IOLoop) (c : IOLoop -> World -> result HTTPClient * World)
    (w : World) (ms : list method) :
  _setup (fst (invoke_all ms (__init__ a p l c w))) = true ->
  _used (fst (invoke_all ms (__init__ a p l c w))) = true
  /\ handles_present (fst (invoke_all ms (__init__ a p l c w))).
Proof.
  assert (forall ms s, active_has_handles (fst s) ->
                       active_has_handles (fst (invoke_all ms s))) as Hall.
  { clear. induction ms as [|m ms IH]; intros s Hs; [done |].
    simpl. apply IH. by apply invoke_keeps_handles. }
  apply Hall. unfold __init__, active_has_handles.
  by repeat case_match.
Qed.

(** X10. After a [setup] that succeeds the loop of the tester is the
    current loop, provided that [make_current] makes its loop current and
    that building the server and the client, binding the socket and adding
    it to the server leave the current loop alone. *)
Theorem setup_makes_loop_current (s s' : Tester * World) :
  (forall l w, IOLoop_current (make_current l w) = l) ->
  (forall a l w, IOLoop_current (snd (HTTPServer_new a l w)) = IOLoop_current w) ->
  (forall l w, IOLoop_current (snd (http_client_class (fst s) l w)) = IOLoop_current w) ->
  (forall w, IOLoop_current (snd (bind_unused_port w)) = IOLoop_current w) ->
  (forall p w, IOLoop_current (snd (bind_sockets p w)) = IOLoop_current w) ->
  (forall srv k w, IOLoop_current (snd (add_socket srv k w)) = IOLoop_current w) ->
  setup s = (Ok tt, s') ->
  IOLoop_current (snd s') = io_loop (fst s).
Proof.
  intros Hmc Hsrv Hcl Hbu Hbs Has.
  destruct s as [t w]. simpl in Hcl. unfold setup. mstep.
  intros Hs. repeat (case_match; simplify_eq/=);
    repeat match goal with
    | Hc : HTTPServer_new ?a ?l ?w0 = (_, ?w1) |- context [IOLoop_current ?w1] =>
        let L := fresh in pose proof (Hsrv a l w0) as L; rewrite Hc in L;
        simpl in L; rewrite L; clear Hc L
    | Hc : http_client_class t ?l ?w0 = (_, ?w1) |- context [IOLoop_current ?w1] =>
        let L := fresh in pose proof (Hcl l w0) as L; rewrite Hc in L;
        simpl in L; rewrite L; clear Hc L
    | Hc : bind_unused_port ?w0 = (_, ?w1) |- context [IOLoop_current ?w1] =>
        let L := fresh in pose proof (Hbu w0) as L; rewrite Hc in L;
        simpl in L; rewrite L; clear Hc L
    | Hc : bind_sockets ?p ?w0 = (_, ?w1) |- context [IOLoop_current ?w1] =>
        let L := fresh in pose proof (Hbs p w0) as L; rewrite Hc in L;
        simpl in L; rewrite L; clear Hc L
    | Hc : add_socket ?srv ?k ?w0 = (_, ?w1) |- context [IOLoop_current ?w1] =>
        let L := fresh in pose proof (Has srv k w0) as L; rewrite Hc in L;
        simpl in L; rewrite L; clear Hc L
    end; apply Hmc.
Qed.


End tester_states.

(** ** Query parameters, added twice *)

Section query_params_more.
Context `{Library}.

Lemma contains_append (c : ascii) (a b : string) :
  contains c (a +:+ b) = contains c a || contains c b.
Proof.
  induction a as [|d a IH]; [done |].
  rewrite append_cons. simpl. by destruct (decide (d = c)).
Qed.

(** What [_add_query_params] returns, in terms of the cut at [#]. *)
Lemma add_query_params_cut (url : string) (params : list (pyval * dval)) (query : string) :
  params <> [] ->
  urlencode (ADict params) = Ok query ->
  _add_query_params url params
  = Ok (fst (cut "#" url)
        +:+ (if contains "?" (fst (cut "#" url)) then "&" else "?") +:+ query
        +:+ fragment_suffix (snd (cut "#" url))).
Proof.
  intros Hne Henc. unfold _add_query_params.
  destruct params as [|p params]; [done |]. simpl truthy. cbv iota.
  rewrite Henc. unfold split1.
  destruct (cut "#" url) as [pre [frag|]]; simpl.
  - destruct (contains "?" pre); by rewrite !append_assoc.
  - destruct (contains "?" pre); by rewrite !append_nil_r.
Qed.

(** X11. Adding parameters to a URL that already went through
    [_add_query_params] joins them with [&] after the first ones, still
    before the fragment, as long as the encoding of the first ones holds no
    [#]. *)
Theorem add_query_params_twice (pre : string) (frag : option string)
    (params1 params2 : list (pyval * dval)) (query1 query2 : string) :
  contains "#" pre = false ->
  params1 <> [] -> params2 <> [] ->
  urlencode (ADict params1) = Ok query1 ->
  urlencode (ADict params2) = Ok query2 ->
  contains "#" query1 = false ->
  exists url1,
    _add_query_params (pre +:+ fragment_suffix frag) params1 = Ok url1
    /\ _add_query_params url1 params2
       = Ok (pre +:+ (if contains "?" pre then "&" else "?") +:+ query1
               +:+ "&" +:+ query2 +:+ fragment_suffix frag).
Proof.
  intros Hpre Hne1 Hne2 Henc1 Henc2 Hq1.
  assert (forall head, contains "#" head = false ->
            cut "#" (head +:+ fragment_suffix frag) = (head, frag)) as Hcut.
  { intros head Hhead. destruct frag as [f|]; simpl.
    - change ("#" +:+ f) with (String "#" f). by apply cut_present.
    - rewrite append_nil_r. by apply cut_absent. }
  eexists. split.
  - rewrite (add_query_params_cut _ _ _ Hne1 Henc1), (Hcut pre Hpre). reflexivity.
  - simpl fst. simpl snd.
    set (sep := if contains "?" pre then "&" else "?").
    assert (contains "#" (pre +:+ sep +:+ query1) = false) as Hhead.
    { rewrite !contains_append, Hpre, Hq1. subst sep. by destruct (contains "?" pre). }
    assert (contains "?" (pre +:+ sep +:+ query1) = true) as Hquestion.
    { rewrite !contains_append. subst sep. by destruct (contains "?" pre). }
    rewrite (add_query_params_cut _ _ _ Hne2 Henc2).
    replace (pre +:+ sep +:+ query1 +:+ fragment_suffix frag)
      with ((pre +:+ sep +:+ query1) +:+ fragment_suffix frag)
      by (by rewrite !append_assoc).
    rewrite (Hcut _ Hhead). simpl fst. simpl snd. rewrite Hquestion.
    by rewrite !append_assoc.
Qed.

End query_params_more.

(** ** Encoding to bytes, boundaries, multipart bodies *)

Section httpclient_more.
Context `{Library}.
Context {Request Callback : Type}.

Lemma length_append (a b : string) :
  String.length (a +:+ b) = (String.length a + String.length b)%nat.
Proof. induction a as [|c a IH]; [done |]. rewrite append_cons. simpl. by rewrite IH. Qed.

Lemma str_encode_append (a b : string) :
  str_encode (a +:+ b) = str_encode a +:+ str_encode b.
Proof.
  induction a as [|c a IH]; [done |].
  rewrite append_cons. simpl. by rewrite IH, append_assoc.
Qed.

Lemma str_encode_ascii (s : string) : all_ascii s = true -> str_encode s = s.
Proof.
  induction s as [|c s IH]; [done |]. simpl. unfold encode_char.
  destruct (decide (nat_of_ascii c < 128)%nat) as [Hlt|Hge].
  - rewrite (proj2 (Nat.ltb_lt _ _) Hlt). simpl. intros Hs. by rewrite (IH Hs).
  - rewrite (proj2 (Nat.ltb_ge _ _)) by lia. done.
Qed.

Lemma str_encode_length (s : string) :
  (String.length s <= String.length (str_encode s) <= 2 * String.length s)%nat.
Proof.
  induction s as [|c s IH]; simpl; [lia |].
  rewrite length_append. unfold encode_char.
  destruct (decide (nat_of_ascii c < 128)%nat); simpl; lia.
Qed.

(** X12. [utf8] keeps text made of ASCII characters as it is, never
    makes text shorter and at most doubles its length, and encodes a
    concatenation piece by piece; bytes go through unchanged. *)
Theorem utf8_text (s t : string) :
  (all_ascii s = true -> utf8 (PStr s) = s)
  /\ (String.length s <= String.length (utf8 (PStr s)) <= 2 * String.length s)%nat
  /\ utf8 (PStr (s +:+ t)) = utf8 (PStr s) +:+ utf8 (PStr t)
  /\ utf8 (PBytes (utf8 (PStr s))) = utf8 (PStr s).
Proof.
  split; [apply str_encode_ascii |]. split; [apply str_encode_length |].
  split; [apply str_encode_append | done].
Qed.

End httpclient_more.

Section boundaries_and_bodies.
Context `{Library}.

Lemma contains_ascii (c : ascii) (s : string) :
  contains c s = true -> all_ascii s = true -> (nat_of_ascii c <? 128)%nat = true.
Proof.
  induction s as [|d s IH]; simpl; [done |].
  intros Hc [Hd Hs]%andb_true_iff.
  destruct (decide (d = c)) as [<-|_]; [done | by apply IH].
Qed.

Lemma choices_shape (n : nat) (r : Rng) :
  (forall r', contains (fst (choice _BOUNDARY_CHARS r')) _BOUNDARY_CHARS = true) ->
  String.length (fst (choices n r)) = n
  /\ all_ascii (fst (choices n r)) = true
  /\ forall c, contains c (fst (choices n r)) = true -> contains c _BOUNDARY_CHARS = true.
Proof.
  intros Hchoice. revert r. induction n as [|n IH]; intros r; simpl.
  - done.
  - pose proof (Hchoice r) as Hc.
    destruct (choice _BOUNDARY_CHARS r) as [c r1]. simpl in Hc.
    destruct (IH r1) as (Hlen & Hascii & Hin).
    destruct (choices n r1) as [s r2]. simpl in *.
    split; [by rewrite Hlen |]. split.
    + rewrite Hascii, andb_true_r. by apply (contains_ascii c _BOUNDARY_CHARS).
    + intros c'. destruct (decide (c = c')) as [<-|_]; [done | apply Hin].
Qed.

(** X13. When [random.randint(20, 50)] answers within its bounds and
    [random.choice] answers with a character of the sequence it is given,
    the boundary is [---], a token of 20 to 50 characters all taken from
    [_BOUNDARY_CHARS], and [---]. *)
Theorem random_boundary_shape (r : Rng) :
  (forall r', 20 <= fst (randint 20 50 r') <= 50)%nat ->
  (forall r', contains (fst (choice _BOUNDARY_CHARS r')) _BOUNDARY_CHARS = true) ->
  exists token,
    fst (random_boundary r) = "---" +:+ token +:+ "---"
    /\ (20 <= String.length token <= 50)%nat
    /\ forall c, contains c token = true -> contains c _BOUNDARY_CHARS = true.
Proof.
  intros Hrand Hchoice. unfold random_boundary.
  pose proof (Hrand r) as Hn. destruct (randint 20 50 r) as [n r1]. simpl in Hn.
  destruct (choices_shape n r1 Hchoice) as (Hlen & Hascii & Hin).
  destruct (choices n r1) as [token r2]. simpl in *.
  exists token. split; [| split; [lia | done]].
  apply (str_encode_ascii ("---" +:+ token +:+ "---")).
  change (all_ascii (token +:+ "---") = true).
  clear -Hascii. induction token as [|c token IH]; [done |].
  rewrite append_cons. simpl in *. apply andb_true_iff in Hascii as [-> Hrest].
  by rewrite IH.
Qed.

Lemma terminated_lines_app (a b : list string) :
  terminated_lines (a ++ b) = terminated_lines a +:+ terminated_lines b.
Proof.
  induction a as [|l a IH]; [done |]. simpl. by rewrite IH, !append_assoc.
Qed.

(** X14. Whatever the fields and the files are, a body that
    [encode_multipart] returns ends with the line [--boundary--] and its
    CRLF; with no field and no file the body is that line alone. *)
Theorem encode_multipart_terminator (form files : arg) (boundary body : string) :
  encode_multipart form files boundary = Ok body ->
  (exists parts, body = parts +:+ "--" +:+ boundary +:+ "--" +:+ CRLF)
  /\ encode_multipart (ADict []) (ADict []) boundary
     = Ok ("--" +:+ boundary +:+ "--" +:+ CRLF).
Proof.
  intros Hbody. split.
  - revert Hbody. unfold encode_multipart.
    destruct (iter_pairs form) as [form_items|]; [| discriminate].
    destruct (iter_pairs files) as [file_items|]; [| discriminate].
    destruct (files_loop _ _ _) as [lines|]; [| discriminate].
    intros [= <-]. change (utf8 (PStr "")) with "".
    rewrite join_blank_last, terminated_lines_app.
    exists (terminated_lines lines). simpl terminated_lines.
    by rewrite append_nil_r, !append_assoc.
  - unfold encode_multipart. simpl. unfold join. simpl.
    by rewrite !append_assoc.
Qed.

Lemma unpack_scalar_raises (v : pyval) : exists e, unpack_file (DVal v) = Raise e.
Proof. destruct v; simpl; try case_decide; eauto. Qed.

Lemma files_loop_scalar_raises (boundary : string) (files : list (pyval * dval))
    (lines : list string) :
  (exists key v, In (key, DVal v) files) ->
  exists e, files_loop boundary files lines = Raise e.
Proof.
  revert lines. induction files as [|[k x] files IH]; intros lines (key & v & Hin).
  - destruct Hin.
  - simpl. destruct Hin as [[= -> ->] | Hin].
    + destruct (unpack_scalar_raises v) as [e ->]. eauto.
    + destruct (unpack_file x) as [[filename data]|e]; [| eauto].
      apply IH. eauto.
Qed.

End boundaries_and_bodies.

(** ** The extended client: what is passed on, what raises *)

Section fetch_more.
Context `{Library}.
Context {Request Callback : Type}.

(** X16. Without [form] and without [files] among the keyword
    arguments, [fetch] is the base client's [fetch]: the request, the
    callback, [raise_error] and the keyword arguments are passed on as
    they are, whatever they hold, and nothing is drawn at random. *)
Theorem fetch_without_form_and_files (request : Request) (callback : Callback)
    (raise_error : bool) (kwargs : gmap string arg) (r : Rng) :
  kwargs !! "form" = None ->
  kwargs !! "files" = None ->
  fetch request callback raise_error kwargs r
  = (Ok (BaseFetch request callback raise_error kwargs), r).
Proof.
  intros Hform Hfiles. unfold fetch, pop. cbv beta iota zeta.
  rewrite lookup_delete_ne by done. rewrite Hform, Hfiles. simpl.
  by rewrite !delete_id by (by rewrite ?lookup_delete_ne).
Qed.

(** X17. In both branches the headers the caller gave are kept: every
    header other than [Content-Type] and [Content-Length] reaches the base
    client with the value the caller gave it, or is absent if the caller
    did not give it. *)
Theorem fetch_keeps_other_headers (request : Request) (callback : Callback)
    (raise_error : bool) (kwargs : gmap string arg) (r r' : Rng)
    (c : base_fetch Request Callback) (d : list (pyval * dval)) :
  fetch request callback raise_error kwargs r = (Ok c, r') ->
  headers_given kwargs d ->
  forall k : string, k <> "Content-Type" -> k <> "Content-Length" ->
    header_of c k = dict_get (PStr k) d.
Proof.
  unfold fetch, pop, headers_given. cbv beta iota zeta.
  rewrite !lookup_delete_ne by done.
  set (form := default (AVal PNone) (kwargs !! "form")).
  set (files := default (AVal PNone) (kwargs !! "files")).
  intros Hfetch Hd k Hct Hcl. rewrite Hd in Hfetch.
  assert (forall v1 v2,
            dict_get (PStr k)
              (dict_set (PStr "Content-Length") v2
                 (dict_set (PStr "Content-Type") v1 d)) = dict_get (PStr k) d) as Hget.
  { intros v1 v2. rewrite !dict_get_set_ne by congruence. done. }
  destruct (truthy form) eqn:Hform; destruct (truthy files) eqn:Hfiles;
    simpl andb in Hfetch; cbv iota in Hfetch;
    repeat case_match; simplify_eq/=;
    unfold header_of; simpl;
    rewrite ?lookup_insert_eq; try apply Hget.
  unfold headers_given in *.
  rewrite !lookup_delete_ne by done.
  destruct (kwargs !! "headers") as [[v|d']|] eqn:Hh; simpl in Hd; by simplify_eq.
Qed.

(** X18. [fetch] draws a boundary exactly when [files] is given and
    true, once, whether it then reaches the base client or raises; in every
    other call the random state is left as it was. *)
Theorem fetch_random_state (request : Request) (callback : Callback)
    (raise_error : bool) (kwargs : gmap string arg) (r : Rng) :
  snd (fetch request callback raise_error kwargs r)
  = if truthy (default (AVal PNone) (kwargs !! "files"))
    then snd (random_boundary r) else r.
Proof.
  unfold fetch, pop. cbv beta iota zeta.
  rewrite !lookup_delete_ne by done.
  destruct (truthy (default (AVal PNone) (kwargs !! "form")));
    destruct (truthy (default (AVal PNone) (kwargs !! "files")));
    simpl andb; cbv iota;
    try destruct (random_boundary r) as [boundary r1];
    repeat case_match; simplify_eq/=; done.
Qed.

(** X19. When the caller passes [headers] that are no dict ([None], a
    string, a number) together with a form or files that are true, [fetch]
    raises and the base client is not called. *)
Theorem fetch_scalar_headers_raise (request : Request) (callback : Callback)
    (raise_error : bool) (kwargs : gmap string arg) (r : Rng) (v : pyval) :
  kwargs !! "headers" = Some (AVal v) ->
  truthy (default (AVal PNone) (kwargs !! "form"))
  || truthy (default (AVal PNone) (kwargs !! "files")) = true ->
  exists e, fst (fetch request callback raise_error kwargs r) = Raise e.
Proof.
  intros Hh Htrue. unfold fetch, pop. cbv beta iota zeta.
  rewrite !lookup_delete_ne by done. rewrite Hh. simpl default.
  destruct (truthy (default (AVal PNone) (kwargs !! "form")));
    destruct (truthy (default (AVal PNone) (kwargs !! "files")));
    try discriminate; simpl andb; cbv iota;
    try destruct (random_boundary r) as [boundary r1];
    repeat case_match; simplify_eq/=; eauto.
Qed.

(** X15. When one value of the [files] dict is a scalar and not a pair
    of a file name and a readable object, [encode_multipart] raises,
    whatever the other entries and the form are, and so does [fetch]: no
    body is made of the entries that were right and the base client is not
    called. *)
Theorem scalar_file_raises (files : list (pyval * dval)) (key v : pyval) :
  In (key, DVal v) files ->
  (forall form boundary, exists e, encode_multipart form (ADict files) boundary = Raise e)
  /\ (forall (request : Request) (callback : Callback) raise_error kwargs r,
        kwargs !! "files" = Some (ADict files) ->
        exists e, fst (fetch request callback raise_error kwargs r) = Raise e).
Proof.
  intros Hin.
  assert (forall form boundary,
            exists e, encode_multipart form (ADict files) boundary = Raise e) as Henc.
  { intros form boundary. unfold encode_multipart.
    destruct (iter_pairs form) as [form_items|e]; [| eauto].
    simpl iter_pairs. cbv iota.
    destruct (files_loop_scalar_raises boundary files
                (List.concat (map (form_lines boundary) form_items))) as [e ->]; eauto. }
  split; [exact Henc |].
  intros request callback raise_error kwargs r Hfiles.
  unfold fetch, pop. cbv beta iota zeta.
  rewrite !lookup_delete_ne by done. rewrite Hfiles. simpl default.
  assert (truthy (ADict files) = true) as -> by (by destruct files).
  rewrite andb_false_r. cbv iota.
  destruct (random_boundary r) as [boundary r1].
  destruct (Henc (if truthy (default (AVal PNone) (kwargs !! "form"))
                  then default (AVal PNone) (kwargs !! "form") else ADict [])
                 boundary) as [e ->].
  eauto.
Qed.

End fetch_more.

(** ** Decoding helpers: which headers count, how errors travel *)

Section util_more.
Context `{Library} `{Codecs}.


(** X21. On a response whose [Content-Encoding] header is text,
    [text_body] and [json_body] raise the [AttributeError] of [encoding]
    without looking at the body; and on a response with neither
    [Content-Encoding] nor [Content-Type], [text_body] decodes the body as
    [utf-8]. *)
Theorem body_helpers_follow_encoding (response : HTTPResponse) :
  (forall v, headers response !! "Content-Encoding" = Some (PStr v) ->
     text_body response = Raise (AttributeError "'str' object has no attribute 'decode'")
     /\ json_body response = Raise (AttributeError "'str' object has no attribute 'decode'"))
  /\ (headers response !! "Content-Encoding" = None ->
      headers response !! "Content-Type" = None ->
      text_body response = decode_as "utf-8" (body response)).
Proof.
  split.
  - intros v Hv. unfold json_body, text_body.
    by rewrite (encoding_text_header_raises _ _ Hv).
  - intros Hce Hct. unfold text_body, encoding. by rewrite Hce, Hct.
Qed.


End util_more.


(** ** The adapter: where outcomes come from *)

Section gen_test_more.
Context `{Tornado}.
Context {Args Value Gen : Type}.
Variable resume : Gen -> @gen_input Value -> World -> @gen_output Value Gen * World.
Variable await : IOLoop -> Value -> World -> result Value * World.

Lemma resumed_finished (o : @gen_output Value Gen * World) (r : result Value) (w : World) :
  resumed o = Finished r w -> o = (finishing r, w).
Proof. destruct o as [[v g|v|e] w']; simpl; intros; by simplify_eq. Qed.

Lemma pump_step_finished (io_loop : IOLoop) (p : @pump _ Value Gen)
    (r : result Value) (w : World) :
  pump_step resume await io_loop p = Finished r w ->
  p = Finished r w
  \/ exists generator input w', resume generator input w' = (finishing r, w).
Proof.
  destruct p as [value generator w0|r0 w0]; simpl; [| by left].
  destruct (await io_loop value w0) as [received w1].
  destruct (resume generator (pass_on received) w1) as [o w2] eqn:Hres.
  destruct o as [v g|v|e]; simpl.
  - case_decide; [| discriminate].
    intros Hthrow%resumed_finished. right. eauto.
  - intros [= <- <-]. right. eauto.
  - intros [= <- <-]. right. eauto.
Qed.

Lemma with_ioloop_finished (io_loop : IOLoop) (fuel : nat) (p : @pump _ Value Gen)
    (r : result Value) (w : World) :
  with_ioloop resume await fuel io_loop p = Some (r, w) ->
  p = Finished r w
  \/ exists generator input w', resume generator input w' = (finishing r, w).
Proof.
  revert p. induction fuel as [|fuel IH]; intros p.
  - destruct p; simpl; [discriminate | intros [= <- <-]; by left].
  - destruct p as [value g w0 | r0 w0]; [| simpl; intros [= <- <-]; by left].
    change (with_ioloop resume await (S fuel) io_loop (Awaiting value g w0))
      with (with_ioloop resume await fuel io_loop
              (pump_step resume await io_loop (Awaiting value g w0))).
    intros Hrun. destruct (IH _ Hrun) as [Hstep | Hgen]; [| by right].
    destruct (pump_step_finished _ _ _ _ Hstep) as [? | ?]; [done | by right].
Qed.

(** X23. Whatever the awaited operations do, a generator test ends only
    with what left its generator: a value [gen_test] returns is a value
    the generator returned, and an exception it raises is an exception
    that the generator raised (its own, or one thrown into it that it did
    not catch), or [StopIteration] when the generator returned without
    ever yielding.  A failure of an awaited operation never ends the test
    by itself. *)
Theorem gen_test_outcome_from_generator (mk : Args -> Gen) (fuel : nat) (args : Args)
    (w : World) (r : result Value) (w' : World) :
  gen_test resume await (GeneratorFunction mk) fuel args w = Some (r, w') ->
  (exists generator input w1 w2, resume generator input w1 = (finishing r, w2))
  \/ (r = Raise StopIteration
      /\ exists v, resume (mk args) GNext w = (Returned v, w')).
Proof.
  unfold gen_test, wrapper.
  destruct (resume (mk args) GNext w) as [[first g0|v|e] w0] eqn:Hfirst.
  - unfold run_sync, loop_stopped.
    destruct (with_ioloop _ _ _ _ _) as [[r0 w1]|] eqn:Hrun; [| discriminate].
    intros [= <- <-].
    destruct (with_ioloop_finished _ _ _ _ _ Hrun) as [? | (g & i & w2 & Hg)];
      [discriminate |].
    left. eauto.
  - intros [= <- <-]. right. eauto.
  - intros [= <- <-]. left. exists (mk args), GNext, w, w0. by rewrite Hfirst.
Qed.

(** X24. The current loop is compared only when the generator yields
    again: when the generator returns at a turn, [gen_test] returns the
    value, whichever loop the generator left current. *)
Theorem final_segment_not_checked (mk : Args -> Gen) (args : Args) (w : World)
    (first : Value) (g0 : Gen) (w0 : World) (n fuel : nat)
    (value : Value) (generator : Gen) (wn : World)
    (received : result Value) (w1 : World) (v : Value) (w2 : World) :
  resume (mk args) GNext w = (Yielded first g0, w0) ->
  Nat.iter n (pump_step resume await (IOLoop_current w0))
    (Awaiting first g0 (make_current (IOLoop_current w0) w0))
    = Awaiting value generator wn ->
  await (IOLoop_current w0) value wn = (received, w1) ->
  resume generator (pass_on received) w1 = (Returned v, w2) ->
  gen_test resume await (GeneratorFunction mk) (S n + fuel) args w
  = Some (Ok v, make_current (IOLoop_current w0) w2).
Proof.
  intros Hfirst Hn Haw Hres.
  unfold gen_test, wrapper. rewrite Hfirst. cbv zeta. unfold run_sync.
  rewrite (with_ioloop_after _ _ _ (S n) fuel), pump_run_S, Hn.
  unfold pump_step. rewrite Haw, Hres. simpl resumed. by destruct fuel.
Qed.

End gen_test_more.

(** ** The further properties on test inputs *)

Section more_examples.
Import Demo DemoBody DemoMore.

Lemma demo_randint_bounds (r : @Rng demo_library) :
  (20 <= fst (randint 20 50 r) <= 50)%nat.
Proof.
  change (fst (randint 20 50 r)) with (20 + hd 0%nat r mod 31)%nat.
  pose proof (Nat.mod_upper_bound (hd 0%nat r) 31). lia.
Defined.

Lemma demo_choice_alphabet (r : @Rng demo_library) :
  contains (fst (choice _BOUNDARY_CHARS r)) _BOUNDARY_CHARS = true.
Proof.
  assert (forall i, (i < 64)%nat ->
            contains (nth i (list_ascii_of_string _BOUNDARY_CHARS) "-"%char)
              _BOUNDARY_CHARS = true) as Hall.
  { intros i Hi. do 64 (destruct i as [|i]; [reflexivity |]). lia. }
  change (fst (choice _BOUNDARY_CHARS r))
    with (nth (hd 0%nat r mod 64) (list_ascii_of_string _BOUNDARY_CHARS) "-"%char).
  apply Hall. apply Nat.mod_upper_bound. lia.
Defined.

(** A tester set up and torn down: the loop that was current is current
    again. *)
Lemma teardown_restores_loop_witness :
  IOLoop_current (snd torn0) = IOLoop_current (snd fresh0).
Proof.
  apply (teardown_restores_loop fresh0 active0 torn0 (snd active0)).
  - intros l w. reflexivity.
  - reflexivity.
  - reflexivity.
Defined.

Lemma teardown_is_final_witness :
  handles_cleared (fst torn0)
  /\ port (fst torn0) = port (fst active0)
  /\ teardown torn0 = (Raise teardown_not_set_up, torn0).
Proof.
  apply (teardown_is_final active0 torn0). reflexivity.
Defined.

Lemma teardown_failure_keeps_tester_witness :
  fst (snd (teardown fresh0)) = fst fresh0.
Proof.
  apply (teardown_failure_keeps_tester fresh0 (snd (teardown fresh0)) teardown_not_set_up).
  reflexivity.
Defined.

Lemma setup_success_state_witness :
  _setup (fst fresh0) = false /\ _used (fst fresh0) = false
  /\ handles_present (fst active0)
  /\ _last_current (fst active0) = Some (IOLoop_current (snd fresh0))
  /\ is_Some (port (fst active0))
  /\ app (fst active0) = app (fst fresh0) /\ io_loop (fst active0) = io_loop (fst fresh0).
Proof.
  apply (setup_success_state fresh0 active0). reflexivity.
Defined.

Lemma failed_setup_uses_up_witness :
  _setup (fst bad_port_used) = false /\ _used (fst bad_port_used) = true
  /\ setup bad_port_used = (Raise cannot_reuse, bad_port_used)
  /\ teardown bad_port_used = (Raise teardown_not_set_up, bad_port_used).
Proof.
  apply (failed_setup_uses_up bad_port_tester bad_port_used (External "OverflowError")).
  - reflexivity.
  - reflexivity.
Defined.

Lemma url_for_idempotent_witness :
  url_for "http://127.0.0.1:10002/hello" [PInt 1] [] active0
  = (Ok "http://127.0.0.1:10002/hello", active0).
Proof.
  apply (url_for_idempotent "hello" [] [PInt 1] active0). reflexivity.
Defined.

Lemma url_for_errors_witness :
  url_for "nope" [] [] (fst active0, snd active0)
  = (Raise (External "KeyError"), (fst active0, snd active0)).
Proof.
  apply (proj2 (url_for_errors (fst active0) (snd active0) "nope" [] []
                  (External "KeyError") eq_refl eq_refl)
           "http://127.0.0.1:10002").
  - reflexivity.
  - reflexivity.
  - reflexivity.
Defined.

Lemma active_tester_has_handles_witness :
  _used (fst (invoke_all [m_setup; m_base_url] (__init__ hello_app None None demo_client w0)))
    = true
  /\ handles_present
      (fst (invoke_all [m_setup; m_base_url] (__init__ hello_app None None demo_client w0))).
Proof.
  apply (active_tester_has_handles hello_app None None demo_client w0
           [m_setup; m_base_url]).
  reflexivity.
Defined.

Lemma setup_makes_loop_current_witness :
  IOLoop_current (snd active0) = io_loop (fst fresh0).
Proof.
  apply (setup_makes_loop_current fresh0 active0).
  - intros l w. reflexivity.
  - intros a l w. reflexivity.
  - intros l w. reflexivity.
  - intros w. reflexivity.
  - intros p w.
    change (bind_sockets p w)
      with (if decide (0 <= p < 65536)%Z then (Ok p, w)
            else (Raise (External "OverflowError"), w)).
    by case_decide.
  - intros srv k w. reflexivity.
  - reflexivity.
Defined.


Lemma add_query_params_twice_witness :
  exists url1,
    _add_query_params ("http://h/p" +:+ fragment_suffix (Some "top"))
      [(PStr "a", DVal (PInt 1))] = Ok url1
    /\ _add_query_params url1 [(PStr "b", DVal (PInt 2))]
       = Ok ("http://h/p" +:+ (if contains "?" "http://h/p" then "&" else "?") +:+ "a=1"
               +:+ "&" +:+ "b=2" +:+ fragment_suffix (Some "top")).
Proof.
  apply (add_query_params_twice "http://h/p" (Some "top")
           [(PStr "a", DVal (PInt 1))] [(PStr "b", DVal (PInt 2))] "a=1" "b=2").
  - reflexivity.
  - discriminate.
  - discriminate.
  - reflexivity.
  - reflexivity.
  - reflexivity.
Defined.

Lemma utf8_text_witness : utf8 (PStr "hello.txt") = "hello.txt".
Proof. apply (proj1 (utf8_text "hello.txt" "")). reflexivity. Defined.

Lemma random_boundary_shape_witness :
  exists token,
    fst (random_boundary ([0%nat] : @Rng demo_library)) = "---" +:+ token +:+ "---"
    /\ (20 <= String.length token <= 50)%nat
    /\ forall c, contains c token = true -> contains c _BOUNDARY_CHARS = true.
Proof.
  exact (random_boundary_shape _ demo_randint_bounds demo_choice_alphabet).
Defined.

Lemma encode_multipart_terminator_witness :
  (exists parts,
     multipart_body "---x---" [] upload = parts +:+ "--" +:+ "---x---" +:+ "--" +:+ CRLF)
  /\ encode_multipart (ADict []) (ADict []) "---x---"
     = Ok ("--" +:+ "---x---" +:+ "--" +:+ CRLF).
Proof.
  apply (encode_multipart_terminator (ADict []) (files_dict upload) "---x---"
           (multipart_body "---x---" [] upload)).
  reflexivity.
Defined.

Lemma scalar_file_raises_witness :
  exists e, fst (fetch "/hello" tt true scalar_file_kwargs ([0%nat] : @Rng demo_library))
            = Raise e.
Proof.
  apply (proj2 (scalar_file_raises [(PStr "file", DVal (PStr "Hello"))]
                  (PStr "file") (PStr "Hello") (or_introl eq_refl))
           "/hello" tt true scalar_file_kwargs ([0%nat] : @Rng demo_library)).
  reflexivity.
Defined.

Lemma fetch_without_form_and_files_witness :
  fetch "/hello" tt true (<["method" := AVal (PStr "PUT")]> ∅) ([0%nat] : @Rng demo_library)
  = (Ok (BaseFetch "/hello" tt true (<["method" := AVal (PStr "PUT")]> ∅)),
     ([0%nat] : @Rng demo_library)).
Proof.
  exact (fetch_without_form_and_files "/hello" tt true
           (<["method" := AVal (PStr "PUT")]> ∅) ([0%nat] : @Rng demo_library)
           eq_refl eq_refl).
Defined.

Lemma fetch_keeps_other_headers_witness :
  exists c,
    fetch "/hello" tt true traced_kwargs ([0%nat] : @Rng demo_library)
      = (Ok c, ([0%nat] : @Rng demo_library))
    /\ header_of c "X-Trace" = dict_get (PStr "X-Trace") [(PStr "X-Trace", DVal (PStr "1"))].
Proof.
  eexists. split; [reflexivity |].
  apply (fetch_keeps_other_headers "/hello" tt true traced_kwargs
           ([0%nat] : @Rng demo_library) ([0%nat] : @Rng demo_library) _
           [(PStr "X-Trace", DVal (PStr "1"))] eq_refl).
  - reflexivity.
  - discriminate.
  - discriminate.
Defined.

Lemma fetch_scalar_headers_raise_witness :
  exists e, fst (fetch "/hello" tt true none_headers_kwargs ([0%nat] : @Rng demo_library))
            = Raise e.
Proof.
  apply (fetch_scalar_headers_raise "/hello" tt true none_headers_kwargs
           ([0%nat] : @Rng demo_library) PNone).
  - reflexivity.
  - reflexivity.
Defined.


Lemma body_helpers_follow_encoding_witness :
  text_body gzip_response
    = Raise (AttributeError "'str' object has no attribute 'decode'")
  /\ json_body gzip_response
     = Raise (AttributeError "'str' object has no attribute 'decode'").
Proof.
  apply (proj1 (body_helpers_follow_encoding gzip_response) "gzip").
  reflexivity.
Defined.


Lemma gen_test_outcome_from_generator_witness :
  (exists generator input w1 w2,
     demo_resume generator input w1 = (finishing (Ok PNone), w2))
  \/ (Ok PNone = Raise StopIteration
      /\ exists v, demo_resume [1; 1; 2; 1] GNext w0
                   = (Returned v, {| current := 1; fresh := 1 |})).
Proof.
  exact (gen_test_outcome_from_generator demo_resume demo_await
           (fun _ : unit => [1; 1; 2; 1]) 2 tt w0 (Ok PNone)
           {| current := 1; fresh := 1 |} eq_refl).
Defined.

Lemma final_segment_not_checked_witness :
  gen_test (Args := unit) leaving_resume demo_await
    (GeneratorFunction (fun _ => false)) (1 + 0) tt w0
  = Some (Ok PNone, make_current (IOLoop_current w0) {| current := 9; fresh := 1 |}).
Proof.
  exact (final_segment_not_checked leaving_resume demo_await
           (fun _ : unit => false) tt w0 PNone true w0 0 0
           PNone true w0 (Ok (PInt 1)) w0 PNone
           {| current := 9; fresh := 1 |} eq_refl eq_refl eq_refl eq_refl).
Defined.

(** Two testers on loops of their own, set up one inside the other and
    torn down in the reverse order: each [teardown] gives back the loop
    that was current at its [setup]. *)
Example nested_testers :
  IOLoop_current (snd tester1_active) = io_loop (fst tester1)
  /\ IOLoop_current (snd tester2_active) = io_loop (fst tester2)
  /\ IOLoop_current (snd (snd (teardown tester2_active))) = io_loop (fst tester1)
  /\ IOLoop_current
       (snd (snd (teardown (fst tester1_active, snd (snd (teardown tester2_active))))))
     = IOLoop_current w0.
Proof. repeat split. Qed.

End more_examples.
